(** * Verification of the peak-finding, clustering and overlay bookkeeping of
    [hyperspy/signals/image.py] (class [Image]).

    Numeric array entries (pixel values, peak coordinates, decomposition
    factors) are modelled as rationals [Q]: exact arithmetic, no rounding.
    A numpy array is modelled as nested lists, outermost axis first. *)

From Stdlib Require Import QArith Qround Lqa String Ascii.
From stdpp Require Import base list sets.

Open Scope Q_scope.

(** ** Python exceptions and the error monad *)

Inductive py_error :=
| ValueError        (* numpy: bad broadcast, [np.min] of an empty array *)
| IndexError        (* numpy: index out of bounds *)
| NameError.        (* Python: unbound (local or global) name *)

Inductive result (A : Type) :=
| Ok (a : A)
| Err (e : py_error).
Arguments Ok {A} a.
Arguments Err {A} e.

Definition bind {A B} (m : result A) (k : A -> result B) : result B :=
  match m with Ok a => k a | Err e => Err e end.

Notation "'let*' x ':=' m 'in' k" := (bind m (fun x => k))
  (at level 200, x name, m at level 100, k at level 200).

(** [for i in xrange(...)] over a list, threading a state that may fail. *)
Fixpoint for_each {A S} (xs : list A) (s : S) (body : A -> S -> result S)
  : result S :=
  match xs with
  | [] => Ok s
  | x :: xs' => let* s' := body x s in for_each xs' s' body
  end.

(** A peak coordinate pair [(x, y)] as returned by [two_dim_findpeaks]. *)
Definition coord := (Q * Q)%type.
Definition zero_coord : coord := (0, 0).

(** ** [Image.peakfind_2D] *)

Module PeakFind.
Section PeakFind.

(** A single 2-D frame, and the external single-frame detector
    [peak_char.two_dim_findpeaks(frame, subpixel, peak_width, medfilt_radius)],
    which returns the [(k, 2)] array of detected peaks as a list of rows. *)
Variable frame : Type.
Variable two_dim_findpeaks : frame -> bool -> Z -> Z -> list coord.

(** [self.data], by number of dimensions.  [ArrRank r] is an array of any
    other rank [r]; its contents are never read by [peakfind_2D]. *)
Inductive ndarray :=
| Arr2 (f : frame)                 (* shape (H, W) *)
| Arr3 (fs : list frame)           (* shape (H, W, N): fs[i] = data[:,:,i] *)
| Arr4 (fss : list (list frame))   (* shape (N, M, H, W): fss[i][j] = data[i,j] *)
| ArrRank (r : nat).

Definition ndim (a : ndarray) : nat :=
  match a with
  | Arr2 _ => 2 | Arr3 _ => 3 | Arr4 _ => 4 | ArrRank r => r
  end.

(** The value of [self.peaks].  A 3-D buffer of shape [(maxpeakn, 2, N)] is
    a list of [maxpeakn] slots, slot [p] listing [peaks[p,:,i]] for every
    image [i]; a 4-D buffer of shape [(maxpeakn, 2, N, M)] lists
    [peaks[p,:,i,j]] as [slot[i][j]]. *)
Inductive peaks_val :=
| P2 (pks : list coord)
| P3 (buf : list (list coord))
| P4 (buf : list (list (list coord))).

Record image := mk_image { data : ndarray; peaks : option peaks_val }.

Definition set_peaks (im : image) (v : peaks_val) : image :=
  mk_image (data im) (Some v).

(** [np.zeros((maxpeakn, 2, N))] and [np.zeros((maxpeakn, 2, N, M))]. *)
Definition zeros3 (maxpeakn : nat) (fs : list frame) : list (list coord) :=
  repeat (repeat zero_coord (length fs)) maxpeakn.
Definition zeros4 (maxpeakn : nat) (fss : list (list frame))
  : list (list (list coord)) :=
  repeat (map (fun row => repeat zero_coord (length row)) fss) maxpeakn.

(** Write [tmp] row by row into the slots [0 .. len(tmp)-1], updating the
    entry of each slot with [upd]. *)
Fixpoint write_rows {S} (upd : coord -> S -> S) (buf : list S)
    (tmp : list coord) : list S :=
  match buf, tmp with
  | s :: buf', c :: tmp' => upd c s :: write_rows upd buf' tmp'
  | _, _ => buf
  end.

(** [self.peaks[:tmp.shape[0],:,i]=tmp]: the slice [peaks[:k]] has
    [min(k, maxpeakn)] rows, so numpy refuses to broadcast [tmp] into it
    when [k > maxpeakn]. *)
Definition assign3 (buf : list (list coord)) (i : nat) (tmp : list coord)
  : result (list (list coord)) :=
  if decide (length tmp <= length buf)%nat
  then Ok (write_rows (fun c s => <[i:=c]> s) buf tmp)
  else Err ValueError.

(** [self.peaks[:tmp.shape[0],:,i,j]=tmp]. *)
Definition assign4 (buf : list (list (list coord))) (i j : nat)
    (tmp : list coord) : result (list (list (list coord))) :=
  if decide (length tmp <= length buf)%nat
  then Ok (write_rows (fun c s => alter (fun row => <[j:=c]> row) i s) buf tmp)
  else Err ValueError.

(** [np.sum] over everything in one slot, i.e. the per-slot entry of
    [np.sum(np.sum(self.peaks,axis=2),axis=1)] (resp. three sums in 4-D). *)
Definition coord_sum (c : coord) : Q := fst c + snd c.
Definition slot_sum3 (s : list coord) : Q :=
  fold_right (fun c acc => coord_sum c + acc) 0 s.
Definition slot_sum4 (s : list (list coord)) : Q :=
  fold_right (fun row acc => slot_sum3 row + acc) 0 s.

(** [np.min(np.nonzero(sums == 0))]: the smallest slot index whose sum is
    exactly zero; [np.min] of an empty array raises [ValueError]. *)
Fixpoint first_zero_from {T} (sum : T -> Q) (k : nat) (buf : list T)
  : option nat :=
  match buf with
  | [] => None
  | s :: buf' => if Qeq_bool (sum s) 0 then Some k
                 else first_zero_from sum (S k) buf'
  end.

Definition trim_id {T} (sum : T -> Q) (buf : list T) : result nat :=
  match first_zero_from sum 0 buf with
  | Some t => Ok t
  | None => Err ValueError
  end.

(** The loop of the 3-D branch: one detection per image, written into the
    preallocated buffer. *)
Definition fill3 (subpixel : bool) (peak_width medfilt_radius : Z)
    (maxpeakn : nat) (fs : list frame) : result (list (list coord)) :=
  for_each (seq 0 (length fs)) (zeros3 maxpeakn fs) (fun i buf =>
    match fs !! i with
    | Some f => assign3 buf i (two_dim_findpeaks f subpixel peak_width medfilt_radius)
    | None => Ok buf
    end).

(** The two nested loops of the 4-D branch. *)
Definition fill4 (subpixel : bool) (peak_width medfilt_radius : Z)
    (maxpeakn : nat) (fss : list (list frame))
  : result (list (list (list coord))) :=
  for_each (seq 0 (length fss)) (zeros4 maxpeakn fss) (fun i buf =>
    let row := default [] (fss !! i) in
    for_each (seq 0 (length row)) buf (fun j buf' =>
      match row !! j with
      | Some f => assign4 buf' i j (two_dim_findpeaks f subpixel peak_width medfilt_radius)
      | None => Ok buf'
      end)).

(** [Image.peakfind_2D(subpixel, peak_width, medfilt_radius, maxpeakn)]:
    dispatch on [len(self.data.shape)]; the [if/elif] chain has no [else]. *)
Definition peakfind_2D (subpixel : bool) (peak_width medfilt_radius : Z)
    (maxpeakn : nat) (self : image) : result image :=
  match data self with
  | Arr2 f =>
      Ok (set_peaks self (P2 (two_dim_findpeaks f subpixel peak_width medfilt_radius)))
  | Arr3 fs =>
      let* buf := fill3 subpixel peak_width medfilt_radius maxpeakn fs in
      let* t := trim_id slot_sum3 buf in
      Ok (set_peaks self (P3 (take t buf)))
  | Arr4 fss =>
      let* buf := fill4 subpixel peak_width medfilt_radius maxpeakn fss in
      let* t := trim_id slot_sum4 buf in
      Ok (set_peaks self (P4 (take t buf)))
  | ArrRank _ => Ok self
  end.

End PeakFind.
End PeakFind.

(** ** Frames as flat pixel vectors *)

Module Frame.

(** A 2-D frame of shape [(H, W)], flattened to its [H*W] pixel values. *)
Definition frame := list Q.

Definition zeros (hw : nat) : frame := repeat 0 hw.

(** Elementwise [a + b] of two frames of the same shape. *)
Definition add (a b : frame) : frame := zip_with Qplus a b.

(** [d.shape[1]*d.shape[2]] for a stack [d] of shape [(N, H, W)]. *)
Definition frame_size (d : list frame) : nat :=
  match d with f :: _ => length f | [] => 0 end.

(** [np.sum(arr, axis=0)] for a stack [arr] of frames of [hw] pixels. *)
Definition sum_axis0 (hw : nat) (arr : list frame) : frame :=
  fold_left add arr (zeros hw).

(** [np.average(d, axis=0)]: the elementwise mean frame of a stack. *)
Definition average (d : list frame) : frame :=
  map (fun s => s / inject_Z (Z.of_nat (length d))) (sum_axis0 (frame_size d) d).

End Frame.

(** ** [Image.kmeans_cluster_stack] *)

Module Cluster.
Import Frame.

(** What the call returns: [avg_stack] (the data of [avg_stack_Image]),
    its [member_counts] metadata, and the [members] metadata of each
    per-cluster image of [cluster_arrays]. *)
Record cluster_result := mk_cluster_result {
  avg_stack : list frame;
  member_counts : list nat;
  cluster_members : list nat
}.

(** [groups.count(i)] *)
Definition count (groups : list nat) (i : nat) : nat :=
  count_occ Nat.eq_dec groups i.

(** The inner loop for cluster [i]: [cluster_array] starts as
    [np.zeros((members, H, W))] and receives [d[j]] at [cluster_idx] for
    every [j] with [groups[j]==i], in order. *)
Definition collect (d : list frame) (groups : list nat) (hw i : nat)
  : result (list frame) :=
  let* acc := for_each (seq 0 (length groups))
      (repeat (zeros hw) (count groups i), 0%nat)
      (fun j '(cluster_array, cluster_idx) =>
         if decide (groups !! j = Some i) then
           match d !! j with
           | Some f => Ok (<[cluster_idx:=f]> cluster_array, S cluster_idx)
           | None => Err IndexError
           end
         else Ok (cluster_array, cluster_idx)) in
  Ok (fst acc).

(** [kmeans_cluster_stack(clusters)] for the stack [d] (shape [(N, H, W)]),
    given the labels [groups] returned by the external classifier
    [kmeans.label(...)].  The location bookkeeping inside [try/except] never
    fails and does not affect the returned values. *)
Definition kmeans_cluster_stack (clusters : nat) (d : list frame)
    (groups : list nat) : result cluster_result :=
  let hw := frame_size d in
  let* avg := for_each (seq 0 clusters) (repeat (zeros hw) clusters)
      (fun i avg_stack =>
         let* cluster_array := collect d groups hw i in
         Ok (<[i:=sum_axis0 hw cluster_array]> avg_stack)) in
  let members_list := map (count groups) (seq 0 clusters) in
  Ok (mk_cluster_result avg members_list members_list).

(** The claim's reading, for comparison with the code: the elementwise mean
    of a cluster's member frames. *)
Definition cluster_mean_spec (hw : nat) (members : list frame) : frame :=
  map (fun s => s / inject_Z (Z.of_nat (length members))) (sum_axis0 hw members).

End Cluster.

(** ** Decomposition matrices and numpy indexing *)

Module NumpyIndex.

(** A 2-D array of shape [(length rows, ncols)]; every row has [ncols]
    entries. *)
Record matrix := mk_matrix { ncols : nat; rows : list (list Q) }.

(** Python/numpy normalisation of an integer index into an axis of length
    [len]: negative indices count from the end, anything else out of range
    raises [IndexError]. *)
Definition py_index (len : nat) (k : Z) : option nat :=
  if decide (0 <= k < Z.of_nat len)%Z then Some (Z.to_nat k)
  else if decide (- Z.of_nat len <= k < 0)%Z then Some (Z.to_nat (Z.of_nat len + k))
  else None.

(** [m[:, c]]: the factor (or score) vector of component [c]. *)
Definition column (m : matrix) (c : Z) : result (list Q) :=
  match py_index (ncols m) c with
  | Some k => Ok (map (fun r => nth k r 0) (rows m))
  | None => Err IndexError
  end.

(** [v[k]] on a 1-D array. *)
Definition get (v : list Q) (k : Z) : result Q :=
  match py_index (length v) k with
  | Some n => Ok (nth n v 0)
  | None => Err IndexError
  end.

(** [row[:] = v[a:a+2]] for a length-2 row and [a >= 0]: the slice keeps
    the entries that exist; one entry is broadcast to both places, none
    cannot be broadcast. *)
Definition assign_slice2 (v : list Q) (a : nat) : result (Q * Q) :=
  match drop a v with
  | x :: y :: _ => Ok (x, y)
  | [x] => Ok (x, x)
  | [] => Err ValueError
  end.

End NumpyIndex.

(** ** Overlay methods of [Image] *)

Module Overlay.
Import Frame NumpyIndex.

(** [str.upper()] on ASCII strings. *)
Definition upper_ascii (a : ascii) : ascii :=
  let n := nat_of_ascii a in
  if decide (97 <= n <= 122)%nat then ascii_of_nat (n - 32) else a.

Fixpoint upper (s : string) : string :=
  match s with
  | EmptyString => EmptyString
  | String a s' => String (upper_ascii a) (upper s')
  end.

Section Overlay.

(** The external [peak_char.peak_attribs_image(image, peak_width)]: one
    record of 7 characteristics per detected peak. *)
Variable peak_attribs_image : frame -> Z -> list (list Q).

(** [records[:,:2]]: the [(x, y)] fields of every record. *)
Definition first2 (r : list Q) : Q * Q := (nth 0 r 0, nth 1 r 0).

(** The attributes of an [Image] the overlay methods read or write. *)
Record img := mk_img {
  data : list frame;                            (* stack, axis 0 = member *)
  target_locations : option (list (Q * Q));
  peak_width : option Z;
  peak_mva_pc : matrix;                         (* self.peak_mva_results.pc *)
  peak_mva_ic : matrix;                         (* self.peak_mva_results.ic *)
  original_files : option (list string);        (* keys of mapped_parameters.original_files *)
  locations : list (string * (Q * Q))           (* records {filename, position} *)
}.

Definition set_targets (s : img) (pw : Z) (t : list (Q * Q)) : img :=
  mk_img (data s) (Some t) (Some pw) (peak_mva_pc s) (peak_mva_ic s)
         (original_files s) (locations s).

(** [plot_peak_ids(self, cell_data, target_locations=None, peak_width=10)]:
    the [(position, id)] labels drawn on the average image. *)
Definition plot_peak_ids (cell_data : list frame)
    (target_locations : option (list (Q * Q))) (peak_width : Z)
  : list ((Q * Q) * nat) :=
  let imgavg := average cell_data in
  let tl := match target_locations with
            | Some t => t
            | None => map first2 (peak_attribs_image imgavg peak_width)
            end in
  zip tl (seq 0 (length tl)).

(** What [plot_cell_overlays] draws: the targets [stl], the quiver [shifts]
    and the scatter colours [char]. *)
Record overlay := mk_overlay {
  ov_targets : list (Q * Q);
  ov_shifts : list (Q * Q);
  ov_char : list Q
}.

(** Python truthiness of an optional int ([None] and [0] are false). *)
Definition truthy (o : option Z) : bool :=
  match o with Some c => negb (Z.eqb c 0) | None => false end.

(** [plot_cell_overlays(cell_data, peak_chars, plot_component=None,
    mva_type='PCA', peak_mva=True, plot_shifts=True, plot_char=None)].
    The method is declared without a [self] parameter, yet its body reads
    [self]: [self] is [None] when that name is unbound (the method as
    declared) and [Some s] when it denotes the image [s]. *)
Definition plot_cell_overlays (self : option img) (plot_component : option Z)
    (mva_type : string) (plot_char : option Z) : result (img * overlay) :=
  match self with
  | None => Err NameError                      (* imgavg=np.average(self.data,axis=0) *)
  | Some s0 =>
    let imgavg := average (data s0) in
    let s := match target_locations s0 with
             | Some _ => s0
             | None =>
                 let pw := default 10%Z (peak_width s0) in
                 set_targets s0 pw (map first2 (peak_attribs_image imgavg pw))
             end in
    let stl := default [] (target_locations s) in
    let n := length stl in
    (* [component] is bound only when a component and a known MVA type are given *)
    let* component :=
      match plot_component with
      | Some c =>
          if String.eqb (upper mva_type) "PCA" then
            let* v := column (peak_mva_pc s) c in Ok (Some v)
          else if String.eqb (upper mva_type) "ICA" then
            let* v := column (peak_mva_ic s) c in Ok (Some v)
          else Ok None
      | None => Ok None
      end in
    let* acc := for_each (seq 0 n) (repeat (0, 0) n, repeat 0 n)
      (fun pos '(shifts, char) =>
         match component with
         | None => Err NameError
         | Some comp =>
             let* sh := assign_slice2 comp (7 * pos + 2) in
             let shifts' := <[pos:=sh]> shifts in
             match plot_char with
             | Some w =>
                 if truthy plot_char then
                   let* v := get comp (Z.of_nat (7 * pos) + w) in
                   Ok (shifts', <[pos:=v]> char)
                 else Ok (shifts', char)
             | None => Ok (shifts', char)
             end
         end) in
    Ok (s, mk_overlay stl (fst acc) (snd acc))
  end.

(** The early returns of [plot_image_overlay], each after a warning. *)
Inductive warning :=
| NoOriginalFiles | NothingToPlotForPeakId | NothingToPlotForPeakMva
| CharAndComponent.

(** [plot_image_overlay(plot_component=None, mva_type='PCA', peak_mva=True,
    peak_id=None, plot_char=None, plot_shift=False)], declared without
    [self] as well.  Returns the warning emitted (if any) and the Python
    return value: [None], or one figure per parent file, each carrying the
    crop positions [locs] of the members cropped from that file. *)
Definition plot_image_overlay (self : option img) (plot_component : option Z)
    (peak_mva : bool) (peak_id plot_char : option Z) (plot_shift : bool)
  : result (option warning * option (list (string * list (Q * Q)))) :=
  match self with
  | None => Err NameError            (* hasattr(self.mapped_parameters, ...) *)
  | Some s =>
    match original_files s with
    | None => Ok (Some NoOriginalFiles, None)
    | Some keys =>
      if bool_decide (peak_id <> None) && negb plot_shift
         && bool_decide (plot_char = None)
      then Ok (Some NothingToPlotForPeakId, None)
      else if peak_mva && negb (bool_decide (plot_char <> None) || plot_shift
                                || truthy plot_component)
      then Ok (Some NothingToPlotForPeakMva, None)
      else if bool_decide (plot_char <> None) && bool_decide (plot_component <> None)
      then Ok (Some CharAndComponent, None)
      else Ok (None, Some (map (fun key =>
             (key, map snd (List.filter (fun l => String.eqb (fst l) key) (locations s)))) keys))
    end
  end.

End Overlay.
End Overlay.

(** ** The subplot layout of [Image._plot_factors_or_pchars] *)

Module Layout.

(** The [comp_ids] argument: [None], an int, or a list of ints. *)
Inductive comp_ids_arg :=
| CompNone
| CompInt (k : Z)
| CompList (ids : list Z).

(** [comp_ids=xrange(factors.shape[1])] for [None], [xrange(comp_ids)] for
    an int (empty when it is not positive), the list itself otherwise. *)
Definition comp_id_list (ncols : nat) (comp_ids : comp_ids_arg) : list Z :=
  match comp_ids with
  | CompNone => map Z.of_nat (seq 0 ncols)
  | CompInt k => map Z.of_nat (seq 0 (Z.to_nat k))
  | CompList ids => ids
  end.

(** The exceptions of the method: [n/float(per_row)] raises
    [ZeroDivisionError]; the others are those of [py_error]. *)
Inductive plot_error :=
| ZeroDivisionError
| Raised (e : py_error).

(** [rows=int(np.ceil(n/float(per_row)))] for [per_row <> 0]. *)
Definition grid_rows (n : nat) (per_row : Z) : Z :=
  Qceiling (inject_Z (Z.of_nat n) / inject_Z per_row).

(** [fig.add_subplot(rows, cols, num)] in the matplotlib this Python 2
    code runs with (<= 2.2): [SubplotBase] checks only
    [1 <= num <= rows*cols] and raises [ValueError] otherwise. *)
Definition add_subplot (rows cols num : Z) : result unit :=
  if decide (1 <= num <= rows * cols)%Z then Ok tt
  else Err ValueError.

(** One drawn component: the grid, the cell and the component id. *)
Record subplot := mk_subplot { sp_rows : Z; sp_cols : Z; sp_num : Z; sp_comp : Z }.

Section Layout.

(** The external [imgdraw._plot_component(f_pc=factors, idx=..., ...)]. *)
Variable plot_component : Z -> result unit.

(** [for i in xrange(n)]: a cell of the shared grid ([same_window]) or of a
    new one-cell figure ([add_subplot(111)]), then the component
    [comp_ids[i]] drawn into it. *)
Definition draw_components (same_window : bool) (rows per_row : Z)
    (comp_ids : list Z) : result (list subplot) :=
  for_each (seq 0 (length comp_ids)) [] (fun i sps =>
    let idx := nth i comp_ids 0%Z in
    if same_window then
      let* _ := add_subplot rows per_row (Z.of_nat i + 1) in
      let* _ := plot_component idx in
      Ok (sps ++ [mk_subplot rows per_row (Z.of_nat i + 1) idx])
    else
      let* _ := add_subplot 1 1 1 in
      let* _ := plot_component idx in
      Ok (sps ++ [mk_subplot 1 1 1 idx])).

(** [_plot_factors_or_pchars(factors, comp_ids, same_window, ..., per_row)]
    for [factors] with [ncols] columns and an image with [naxes] axes:
    [rows] is computed only when [same_window], before
    [self.axes_manager.axes[2]] is read for the frame shape. *)
Definition plot_factors_or_pchars (naxes ncols : nat) (comp_ids : comp_ids_arg)
    (same_window : bool) (per_row : Z) : plot_error + list subplot :=
  let ids := comp_id_list ncols comp_ids in
  if same_window && Z.eqb per_row 0 then inl ZeroDivisionError
  else if decide (naxes < 3)%nat then inl (Raised IndexError)
  else match draw_components same_window (grid_rows (length ids) per_row) per_row ids with
       | Ok sps => inr sps
       | Err e => inl (Raised e)
       end.

End Layout.

(** Modelled from the spec: [imgdraw._plot_component] (module
    hyperspy/drawing/image.py, which is not under src/), in its part of
    ComponentScoreAdapter's [select]: the component id [idx] is validated
    against the column count of the factor matrix [f_pc], and an
    out-of-range id fails with ComponentIndexError (the [IndexError] of
    [py_error]); the drawing itself is out of scope. *)
Definition select_plot_component (f_pc : NumpyIndex.matrix) (idx : Z) : result unit :=
  if decide (0 <= idx < Z.of_nat (NumpyIndex.ncols f_pc))%Z then Ok tt
  else Err IndexError.

End Layout.

Arguments PeakFind.Arr2 {frame} f.
Arguments PeakFind.Arr3 {frame} fs.
Arguments PeakFind.Arr4 {frame} fss.
Arguments PeakFind.ArrRank {frame} r.
Arguments PeakFind.mk_image {frame} data peaks.
Arguments PeakFind.peaks {frame} i.
Arguments PeakFind.data {frame} i.
Arguments PeakFind.ndim {frame} a.

(** ** Definitions used by the proofs and their concrete instances *)

(** After the loop has treated the first [i] of [n] images, slot [p] holds
    the [p]-th detected peak of each of them, and zeros elsewhere. *)
Definition filled_upto (dets : list (list coord)) (n i p : nat) : list coord :=
  map (fun d => default zero_coord (d !! p)) (take i dets)
  ++ repeat zero_coord (n - i).

(** A frame type whose frames are their own detection results
    ([two_dim_findpeaks] returns the frame itself). *)
Definition self_detect (f : list coord) (_ : bool) (_ _ : Z) : list coord := f.

(** An image with no stack, no targets, empty decompositions and no
    catalogue of crop origins. *)
Definition empty_img : Overlay.img :=
  Overlay.mk_img [] None None (NumpyIndex.mk_matrix 0 []) (NumpyIndex.mk_matrix 0 []) None [].

(** An image with the targets [stl], no stack and one principal component
    [1, 2, ..., 7] of the peak characteristics. *)
Definition factor_img (stl : list (Q * Q)) : Overlay.img :=
  Overlay.mk_img [] (Some stl) None
    (NumpyIndex.mk_matrix 1 [[1]; [2]; [3]; [4]; [5]; [6]; [7]])
    (NumpyIndex.mk_matrix 0 []) None [].

(** The frames [d[j]] with [groups[j] == i], in stack order. *)
Fixpoint members_of (groups : list nat) (d : list Frame.frame) (i : nat)
  : list Frame.frame :=
  match groups, d with
  | g :: gs, f :: fs =>
      if decide (g = i) then f :: members_of gs fs i else members_of gs fs i
  | _, _ => []
  end.

(** * Properties *)

(** ** The error monad *)

Lemma for_each_const {A S} (xs : list A) (s : S) body :
  (forall x, x ∈ xs -> body x s = Ok s) -> for_each xs s body = Ok s.
Proof.
  induction xs as [|x xs IH]; intros Hb; simpl; [done|].
  rewrite Hb by set_solver. simpl. apply IH. intros y Hy. apply Hb. set_solver.
Qed.

Lemma for_each_inv {A S} (P : S -> Prop) (xs : list A) (s s' : S) body :
  P s -> (forall x t t', P t -> body x t = Ok t' -> P t') ->
  for_each xs s body = Ok s' -> P s'.
Proof.
  revert s. induction xs as [|x xs IH]; intros s Hs Hb; simpl.
  - by intros [= <-].
  - destruct (body x s) as [t|e] eqn:E; simpl; [|discriminate].
    apply IH; [eapply Hb; eauto|done].
Qed.

Module PeakFindFacts.
Import PeakFind.
Section PeakFindFacts.
Variable frame : Type.
Variable det : frame -> bool -> Z -> Z -> list coord.

(** Small sanity checks on a frame type whose frames are their own
    detection results. *)
Example trim_example :
  peakfind_2D (list coord) (fun f _ _ _ => f) false 10 5 4
    (mk_image (Arr3 [[(1,2)]; [(1,2); (3,4)]]) None)
  = Ok (mk_image (Arr3 [[(1,2)]; [(1,2); (3,4)]])
          (Some (P3 [[(1,2); (1,2)]; [(0,0); (3,4)]]))).
Proof. reflexivity. Qed.

Example trim_full_example :
  peakfind_2D (list coord) (fun f _ _ _ => f) false 10 5 1
    (mk_image (Arr3 [[(1,2)]]) None) = Err ValueError.
Proof. reflexivity. Qed.

(** ** The first zero-sum slot *)

Lemma first_zero_from_Some {T} (sum : T -> Q) (buf : list T) k t :
  first_zero_from sum k buf = Some t <->
  (k <= t)%nat /\
  (exists s, buf !! (t - k)%nat = Some s /\ sum s == 0) /\
  (forall p s, (p < t - k)%nat -> buf !! p = Some s -> ~ sum s == 0).
Proof.
  revert k. induction buf as [|s buf IH]; intros k; simpl.
  - split; [discriminate|]. intros (_ & (s & Hs & _) & _). done.
  - destruct (Qeq_bool (sum s) 0) eqn:E.
    + apply Qeq_bool_iff in E. split.
      * intros [= <-]. split; [lia|]. split.
        { exists s. rewrite Nat.sub_diag. done. }
        { intros p s' Hp. lia. }
      * intros (Hk & _ & Hnz). destruct (decide (t = k)) as [->|Hne]; [done|].
        exfalso. apply (Hnz 0%nat s); [lia|done|done].
    + assert (~ sum s == 0) as Hs.
      { intros H. apply Qeq_bool_iff in H. congruence. }
      rewrite IH. split.
      * intros (Hk & (s' & Hs' & Hz) & Hnz). split; [lia|]. split.
        { exists s'. replace (t - k)%nat with (S (t - S k)) by lia. done. }
        { intros [|p] s'' Hp Hl; simpl in Hl.
          - by injection Hl as <-.
          - apply (Hnz p s''); [lia|done]. }
      * intros (Hk & (s' & Hs' & Hz) & Hnz).
        destruct (decide (t = k)) as [->|Hne].
        { rewrite Nat.sub_diag in Hs'. simpl in Hs'. injection Hs' as <-. done. }
        split; [lia|]. split.
        { exists s'. replace (t - k)%nat with (S (t - S k)) in Hs' by lia. done. }
        { intros p s'' Hp Hl. apply (Hnz (S p) s''); [lia|done]. }
Qed.

Lemma first_zero_from_None {T} (sum : T -> Q) (buf : list T) k :
  first_zero_from sum k buf = None <-> (forall s, s ∈ buf -> ~ sum s == 0).
Proof.
  revert k. induction buf as [|s buf IH]; intros k; simpl.
  - split; [|done]. intros _ s Hs. set_solver.
  - destruct (Qeq_bool (sum s) 0) eqn:E.
    + apply Qeq_bool_iff in E. split; [discriminate|].
      intros H. exfalso. apply (H s); [set_solver|done].
    + rewrite IH. split.
      * intros H s' Hs'. apply elem_of_cons in Hs' as [->|Hs'].
        { intros Hz. apply Qeq_bool_iff in Hz. congruence. }
        by apply H.
      * intros H s' Hs'. apply H. set_solver.
Qed.

(** ** Writing detection results into the buffer *)

Lemma write_rows_length {S} (upd : coord -> S -> S) buf tmp :
  length (write_rows upd buf tmp) = length buf.
Proof.
  revert tmp. induction buf as [|s buf IH]; intros [|c tmp]; simpl; auto.
Qed.

Lemma write_rows_lookup {S} (upd : coord -> S -> S) buf tmp p :
  write_rows upd buf tmp !! p
  = (fun s => match tmp !! p with Some c => upd c s | None => s end) <$> buf !! p.
Proof.
  revert tmp p. induction buf as [|s buf IH]; intros [|c tmp] [|p]; simpl; auto.
  - by destruct (buf !! p).
Qed.

Lemma fill3_length subpixel pw mr maxpeakn fs buf :
  fill3 frame det subpixel pw mr maxpeakn fs = Ok buf -> length buf = maxpeakn.
Proof.
  unfold fill3. apply (for_each_inv (fun b => length b = maxpeakn)).
  - unfold zeros3. by rewrite repeat_length.
  - intros i t t' Ht. destruct (fs !! i); [|by intros [= <-]].
    unfold assign3. case_decide; [|discriminate].
    intros [= <-]. by rewrite write_rows_length.
Qed.

Lemma fill4_length subpixel pw mr maxpeakn fss buf :
  fill4 frame det subpixel pw mr maxpeakn fss = Ok buf -> length buf = maxpeakn.
Proof.
  unfold fill4. apply (for_each_inv (fun b => length b = maxpeakn)).
  - unfold zeros4. by rewrite repeat_length.
  - intros i t t' Ht. apply (for_each_inv (fun b => length b = maxpeakn)); [done|].
    intros j u u' Hu. destruct (_ !! j); [|by intros [= <-]].
    unfold assign4. case_decide; [|discriminate].
    intros [= <-]. by rewrite write_rows_length.
Qed.

Lemma map_const_seq {A} (c : A) s m : map (fun _ => c) (seq s m) = repeat c m.
Proof. revert s. induction m as [|m IH]; intros s; simpl; [done|]. by rewrite IH. Qed.

Lemma write_filled_upto dets n i m d :
  length dets = n -> dets !! i = Some d -> (length d <= m)%nat ->
  write_rows (fun c s => <[i:=c]> s) (map (filled_upto dets n i) (seq 0 m)) d
  = map (filled_upto dets n (S i)) (seq 0 m).
Proof.
  intros Hn Hd Hm. assert (i < n)%nat as Hi.
  { subst n. by eapply lookup_lt_Some. }
  apply list_eq. intros p. rewrite write_rows_lookup.
  rewrite !list_lookup_fmap.
  destruct (seq 0 m !! p) as [q|] eqn:Hq; simpl; [|done].
  apply lookup_seq in Hq as [-> _]. f_equal.
  unfold filled_upto. rewrite (take_S_r _ _ _ Hd), map_app. simpl.
  replace (n - i)%nat with (S (n - S i)) by lia. simpl.
  rewrite <- app_assoc. simpl.
  assert (length (map (fun d0 => default zero_coord (d0 !! p)) (take i dets)) = i)
    as Hl by (rewrite length_map, length_take; lia).
  destruct (d !! p) as [c|] eqn:Hc; simpl.
  - rewrite <- Hl at 1. rewrite <- (Nat.add_0_r (length _)), insert_app_r. done.
  - done.
Qed.

(** When no detection overflows the buffer, the filled 3-D buffer holds in
    slot [p] the [p]-th detected peak of every image, zero where an image has
    fewer peaks. *)
Lemma fill3_closed subpixel pw mr m fs :
  (forall f, f ∈ fs -> (length (det f subpixel pw mr) <= m)%nat) ->
  fill3 frame det subpixel pw mr m fs
  = Ok (map (fun p => map (fun f => default zero_coord (det f subpixel pw mr !! p)) fs)
            (seq 0 m)).
Proof.
  intros Hfit. set (dets := map (fun f => det f subpixel pw mr) fs).
  set (n := length fs).
  assert (Hloop : forall k i, (i + k <= n)%nat ->
    for_each (seq i k) (map (filled_upto dets n i) (seq 0 m))
      (fun i buf => match fs !! i with
                    | Some f => assign3 buf i (det f subpixel pw mr)
                    | None => Ok buf end)
    = Ok (map (filled_upto dets n (i + k)) (seq 0 m))).
  { induction k as [|k IH]; intros i Hik; simpl.
    - by rewrite Nat.add_0_r.
    - destruct (fs !! i) as [f|] eqn:Hf.
      2:{ apply lookup_ge_None in Hf. lia. }
      assert (f ∈ fs) as Hin by (eapply list_elem_of_lookup_2; eauto).
      unfold assign3. rewrite length_map, length_seq.
      rewrite decide_True by (by apply Hfit). simpl.
      rewrite write_filled_upto with (d := det f subpixel pw mr).
      + replace (i + S k)%nat with (S i + k)%nat by lia. apply IH. lia.
      + subst dets n. by rewrite length_map.
      + subst dets. by rewrite list_lookup_fmap, Hf.
      + by apply Hfit. }
  unfold fill3. fold n.
  replace (zeros3 frame m fs) with (map (filled_upto dets n 0) (seq 0 m)).
  2:{ unfold zeros3, filled_upto. simpl. rewrite Nat.sub_0_r.
      apply map_const_seq. }
  rewrite Hloop by lia. simpl. f_equal. apply map_ext. intros p.
  unfold filled_upto. rewrite Nat.sub_diag, app_nil_r, take_ge.
  - subst dets. by rewrite map_map.
  - subst dets n. rewrite length_map. lia.
Qed.

(** The per-slot sum of a slot where every image holds the same peak. *)
Lemma slot_sum3_repeat c k : slot_sum3 (repeat c k) == inject_Z (Z.of_nat k) * coord_sum c.
Proof.
  induction k as [|k IH]; simpl.
  - unfold slot_sum3. simpl. reflexivity.
  - unfold slot_sum3 in *. simpl. rewrite IH.
    rewrite Nat2Z.inj_succ, <- Z.add_1_l, inject_Z_plus. ring.
Qed.

Lemma slot_sum3_zeros k : slot_sum3 (repeat zero_coord k) == 0.
Proof. rewrite slot_sum3_repeat. unfold coord_sum. simpl. ring. Qed.

Lemma slot_sum4_zeros (fss : list (list frame)) :
  slot_sum4 (map (fun row => repeat zero_coord (length row)) fss) == 0.
Proof.
  induction fss as [|row fss IH]; [reflexivity|].
  unfold slot_sum4 in *. simpl. rewrite IH, slot_sum3_zeros. reflexivity.
Qed.

Lemma first_zero_at {T} (sum : T -> Q) (buf : list T) t :
  (exists s, buf !! t = Some s /\ sum s == 0) ->
  (forall p s, (p < t)%nat -> buf !! p = Some s -> ~ sum s == 0) ->
  trim_id sum buf = Ok t.
Proof.
  intros Hz Hnz. unfold trim_id.
  replace (first_zero_from sum 0 buf) with (Some t); [done|]. symmetry.
  apply first_zero_from_Some. rewrite Nat.sub_0_r. split; [lia|]. auto.
Qed.

Lemma trim_id_spec {T} (sum : T -> Q) (buf : list T) t :
  trim_id sum buf = Ok t ->
  (t < length buf)%nat /\ exists s, s ∈ buf /\ buf !! t = Some s /\ sum s == 0.
Proof.
  unfold trim_id. destruct (first_zero_from sum 0 buf) as [t'|] eqn:Hz; [|discriminate].
  intros [= <-]. apply first_zero_from_Some in Hz as (_ & (s & Hs & Hs0) & _).
  rewrite Nat.sub_0_r in Hs. split; [by eapply lookup_lt_Some|].
  exists s. split; [by eapply list_elem_of_lookup_2|]. auto.
Qed.

Lemma trim_id_none {T} (sum : T -> Q) (buf : list T) :
  (forall s, s ∈ buf -> ~ sum s == 0) -> trim_id sum buf = Err ValueError.
Proof.
  intros H. unfold trim_id. apply (first_zero_from_None sum buf 0) in H. by rewrite H.
Qed.

Lemma write_rows_nil {S} (upd : coord -> S -> S) buf : write_rows upd buf [] = buf.
Proof. by destruct buf. Qed.

Lemma fill4_no_peaks subpixel pw mr m (fss : list (list frame)) :
  (forall row f, row ∈ fss -> f ∈ row -> det f subpixel pw mr = []) ->
  fill4 frame det subpixel pw mr m fss = Ok (zeros4 frame m fss).
Proof.
  intros Hnone. unfold fill4. apply for_each_const. intros i Hi.
  destruct (fss !! i) as [row|] eqn:Hrow; simpl; [|done].
  apply for_each_const. intros j Hj.
  destruct (row !! j) as [f|] eqn:Hf; [|done].
  rewrite (Hnone row f) by (eapply list_elem_of_lookup_2; eauto).
  unfold assign4. rewrite decide_True by (simpl; lia). by rewrite write_rows_nil.
Qed.

(** ** Claims about [peakfind_2D] *)

(** C1: in the 3-D and 4-D branches the filled buffer is truncated at the
    smallest slot index whose entries, summed over every image and both
    coordinates, are exactly zero.  Consequently a stack of [N >= 1]
    identical frames with one detected peak [(x, y)] away from the origin
    (pixel coordinates, so non-negative) keeps exactly one slot, holding
    [(x, y)] for every image (for any [maxpeakn >= 2], e.g. the default
    30000). *)
Theorem peakfind_trims_at_first_zero_slot subpixel pw mr maxpeakn
    (pk : option peaks_val) :
  (forall fs buf t,
     fill3 frame det subpixel pw mr maxpeakn fs = Ok buf ->
     (exists s, buf !! t = Some s /\ slot_sum3 s == 0) ->
     (forall p s, (p < t)%nat -> buf !! p = Some s -> ~ slot_sum3 s == 0) ->
     peakfind_2D frame det subpixel pw mr maxpeakn (mk_image (Arr3 fs) pk)
     = Ok (mk_image (Arr3 fs) (Some (P3 (take t buf))))) /\
  (forall fss buf t,
     fill4 frame det subpixel pw mr maxpeakn fss = Ok buf ->
     (exists s, buf !! t = Some s /\ slot_sum4 s == 0) ->
     (forall p s, (p < t)%nat -> buf !! p = Some s -> ~ slot_sum4 s == 0) ->
     peakfind_2D frame det subpixel pw mr maxpeakn (mk_image (Arr4 fss) pk)
     = Ok (mk_image (Arr4 fss) (Some (P4 (take t buf))))) /\
  (forall f N x y,
     det f subpixel pw mr = [(x, y)] -> (1 <= N)%nat -> (2 <= maxpeakn)%nat ->
     0 <= x -> 0 <= y -> ~ (x == 0 /\ y == 0) ->
     peakfind_2D frame det subpixel pw mr maxpeakn (mk_image (Arr3 (repeat f N)) pk)
     = Ok (mk_image (Arr3 (repeat f N)) (Some (P3 [repeat (x, y) N])))).
Proof.
  split; [|split].
  - intros fs buf t Hfill Hz Hnz. unfold peakfind_2D. simpl.
    rewrite Hfill. simpl. by rewrite (first_zero_at _ _ _ Hz Hnz).
  - intros fss buf t Hfill Hz Hnz. unfold peakfind_2D. simpl.
    rewrite Hfill. simpl. by rewrite (first_zero_at _ _ _ Hz Hnz).
  - intros f N x y Hdet HN Hm Hx Hy Hxy.
    assert (Hpos : 0 < x + y).
    { destruct (Qlt_le_dec 0 (x + y)) as [H|H]; [done|].
      exfalso. apply Hxy. split; lra. }
    unfold peakfind_2D. simpl.
    rewrite fill3_closed.
    2:{ intros f' Hf'. apply list_elem_of_In, repeat_spec in Hf'; subst f'. rewrite Hdet. simpl. lia. }
    simpl. destruct maxpeakn as [|[|m]]; [lia|lia|].
    simpl. rewrite !map_repeat, Hdet. simpl.
    rewrite (first_zero_at _ _ 1).
    + done.
    + eexists. split; [reflexivity|]. apply slot_sum3_zeros.
    + intros [|p] s Hp Hs; [|lia]. simpl in Hs. injection Hs as <-.
      rewrite slot_sum3_repeat. unfold coord_sum. simpl.
      intros H. destruct N as [|N]; [lia|].
      assert (0 < inject_Z (Z.of_nat (S N))) as HN'.
      { change 0 with (inject_Z 0). rewrite <- Zlt_Qlt. lia. }
      assert (0 < inject_Z (Z.of_nat (S N)) * (x + y)) as Hprod
        by (apply Qmult_lt_0_compat; done).
      rewrite H in Hprod. apply (Qlt_irrefl 0). done.
Qed.

(** C2 (as the code does it): for an array whose rank is not 2, 3 or 4,
    [peakfind_2D] attempts no detection and returns normally, leaving the
    image (in particular [self.peaks]) unchanged. *)
Theorem peakfind_other_rank_is_noop subpixel pw mr maxpeakn (im : image frame) :
  ndim (data im) <> 2%nat -> ndim (data im) <> 3%nat -> ndim (data im) <> 4%nat ->
  peakfind_2D frame det subpixel pw mr maxpeakn im = Ok im.
Proof.
  intros H2 H3 H4. unfold peakfind_2D.
  destruct (data im) eqn:Hd; simpl in *; congruence.
Qed.

(** C7: for a 4-D stack of shape (2, 2, H, W) whose frames have no
    detected peak, the buffer stays all-zero, the trimming index is 0 and
    [peakfind_2D] returns normally with zero peak slots (for any
    [maxpeakn >= 1], e.g. the default 30000). *)
Theorem peakfind_4d_no_peaks_is_empty subpixel pw mr maxpeakn
    (pk : option peaks_val) (f00 f01 f10 f11 : frame) :
  (forall f, f ∈ [f00; f01; f10; f11] -> det f subpixel pw mr = []) ->
  (1 <= maxpeakn)%nat ->
  peakfind_2D frame det subpixel pw mr maxpeakn
    (mk_image (Arr4 [[f00; f01]; [f10; f11]]) pk)
  = Ok (mk_image (Arr4 [[f00; f01]; [f10; f11]]) (Some (P4 []))).
Proof.
  intros Hnone Hm. unfold peakfind_2D. simpl.
  rewrite fill4_no_peaks.
  2:{ intros row f Hrow Hf. apply Hnone.
      apply list_elem_of_In in Hrow, Hf. apply list_elem_of_In. simpl in *.
      destruct Hrow as [<-|[<-|[]]]; simpl in Hf; tauto. }
  simpl. rewrite (first_zero_at _ _ 0).
  - done.
  - unfold zeros4. destruct maxpeakn as [|m]; [lia|].
    eexists. split; [reflexivity|]. apply slot_sum4_zeros.
  - intros p s Hp. lia.
Qed.

(** C10: in the 3-D and 4-D branches, [peakfind_2D] returns only if some
    slot of the filled buffer has an exactly-zero sum, and then keeps
    strictly fewer than [maxpeakn] slots; when every slot of the filled
    buffer has a non-zero sum, [np.min] of the empty index set raises
    [ValueError] instead of the untrimmed buffer being returned. *)
Theorem peakfind_returns_only_with_zero_slot subpixel pw mr maxpeakn
    (pk : option peaks_val) :
  (forall fs im',
     peakfind_2D frame det subpixel pw mr maxpeakn (mk_image (Arr3 fs) pk) = Ok im' ->
     exists buf b, fill3 frame det subpixel pw mr maxpeakn fs = Ok buf /\
       (exists s, s ∈ buf /\ slot_sum3 s == 0) /\
       peaks im' = Some (P3 b) /\ (length b < maxpeakn)%nat) /\
  (forall fs buf,
     fill3 frame det subpixel pw mr maxpeakn fs = Ok buf ->
     (forall s, s ∈ buf -> ~ slot_sum3 s == 0) ->
     peakfind_2D frame det subpixel pw mr maxpeakn (mk_image (Arr3 fs) pk)
     = Err ValueError) /\
  (forall fss im',
     peakfind_2D frame det subpixel pw mr maxpeakn (mk_image (Arr4 fss) pk) = Ok im' ->
     exists buf b, fill4 frame det subpixel pw mr maxpeakn fss = Ok buf /\
       (exists s, s ∈ buf /\ slot_sum4 s == 0) /\
       peaks im' = Some (P4 b) /\ (length b < maxpeakn)%nat) /\
  (forall fss buf,
     fill4 frame det subpixel pw mr maxpeakn fss = Ok buf ->
     (forall s, s ∈ buf -> ~ slot_sum4 s == 0) ->
     peakfind_2D frame det subpixel pw mr maxpeakn (mk_image (Arr4 fss) pk)
     = Err ValueError).
Proof.
  split; [|split; [|split]].
  - intros fs im'. unfold peakfind_2D. simpl.
    destruct (fill3 _ _ _ _ _ _ fs) as [buf|e] eqn:Hf; simpl; [|discriminate].
    destruct (trim_id slot_sum3 buf) as [t|e] eqn:Ht; simpl; [|discriminate].
    intros [= <-]. apply trim_id_spec in Ht as (Hlt & s & Hs & _ & Hs0).
    apply fill3_length in Hf as Hlen.
    exists buf, (take t buf). split; [done|]. split; [eauto|]. split; [done|].
    rewrite length_take. lia.
  - intros fs buf Hf Hnz. unfold peakfind_2D. simpl.
    rewrite Hf. simpl. by rewrite trim_id_none.
  - intros fss im'. unfold peakfind_2D. simpl.
    destruct (fill4 _ _ _ _ _ _ fss) as [buf|e] eqn:Hf; simpl; [|discriminate].
    destruct (trim_id slot_sum4 buf) as [t|e] eqn:Ht; simpl; [|discriminate].
    intros [= <-]. apply trim_id_spec in Ht as (Hlt & s & Hs & _ & Hs0).
    apply fill4_length in Hf as Hlen.
    exists buf, (take t buf). split; [done|]. split; [eauto|]. split; [done|].
    rewrite length_take. lia.
  - intros fss buf Hf Hnz. unfold peakfind_2D. simpl.
    rewrite Hf. simpl. by rewrite trim_id_none.
Qed.

End PeakFindFacts.
End PeakFindFacts.

(** ** Concrete instances of the [peakfind_2D] claims *)

Lemma peakfind_trims_at_first_zero_slot_witness :
  PeakFind.peakfind_2D (list coord) self_detect false 10 5 3
    (PeakFind.mk_image (PeakFind.Arr3 (repeat [(1, 2)] 2%nat)) None)
  = Ok (PeakFind.mk_image (PeakFind.Arr3 (repeat [(1, 2)] 2%nat))
          (Some (PeakFind.P3 [repeat (1, 2) 2%nat]))).
Proof.
  apply (proj2 (proj2 (PeakFindFacts.peakfind_trims_at_first_zero_slot
           (list coord) self_detect false 10 5 3 None)) [(1, 2)] 2%nat 1 2).
  - reflexivity.
  - lia.
  - lia.
  - unfold Qle. simpl. lia.
  - unfold Qle. simpl. lia.
  - intros [H _]. vm_compute in H. discriminate.
Defined.

Lemma peakfind_other_rank_is_noop_witness :
  PeakFind.peakfind_2D (list coord) self_detect false 10 5 3
    (PeakFind.mk_image (PeakFind.ArrRank 1) None)
  = Ok (PeakFind.mk_image (PeakFind.ArrRank 1) None).
Proof.
  apply PeakFindFacts.peakfind_other_rank_is_noop; simpl; lia.
Defined.

(** C2 fails: a rank-1 array makes [peakfind_2D] return normally, with no
    detection and no error. *)
Lemma peakfind_rank1_completes_silently :
  PeakFind.ndim (PeakFind.data (PeakFind.mk_image (frame:=list coord) (PeakFind.ArrRank 1) None)) = 1%nat /\
  PeakFind.peakfind_2D (list coord) self_detect false 10 5 3
    (PeakFind.mk_image (PeakFind.ArrRank 1) None)
  = Ok (PeakFind.mk_image (PeakFind.ArrRank 1) None).
Proof. split; reflexivity. Qed.

Lemma peakfind_4d_no_peaks_is_empty_witness :
  PeakFind.peakfind_2D (list coord) self_detect false 10 5 3
    (PeakFind.mk_image (PeakFind.Arr4 [[[]; []]; [[]; []]]) None)
  = Ok (PeakFind.mk_image (PeakFind.Arr4 [[[]; []]; [[]; []]])
          (Some (PeakFind.P4 []))).
Proof.
  apply (PeakFindFacts.peakfind_4d_no_peaks_is_empty (list coord) self_detect
           false 10 5 3 None [] [] [] []).
  - intros f Hf. apply list_elem_of_In in Hf. simpl in Hf.
    destruct Hf as [<-|[<-|[<-|[<-|[]]]]]; reflexivity.
  - lia.
Defined.

Lemma peakfind_returns_only_with_zero_slot_witness :
  PeakFind.peakfind_2D (list coord) self_detect false 10 5 1
    (PeakFind.mk_image (PeakFind.Arr3 [[(1, 2)]]) None) = Err ValueError.
Proof.
  apply (proj1 (proj2 (PeakFindFacts.peakfind_returns_only_with_zero_slot
           (list coord) self_detect false 10 5 1 None)) [[(1, 2)]] [[(1, 2)]]).
  - reflexivity.
  - intros s Hs. apply list_elem_of_In in Hs. simpl in Hs.
    destruct Hs as [<-|[]]. vm_compute. discriminate.
Defined.

(** ** Claims about [kmeans_cluster_stack] *)

Lemma for_each_ok {A S} (P : S -> Prop) (xs : list A) (s : S) body :
  P s -> (forall x t, x ∈ xs -> P t -> exists t', body x t = Ok t' /\ P t') ->
  exists s', for_each xs s body = Ok s' /\ P s'.
Proof.
  revert s. induction xs as [|x xs IH]; intros s Hs Hb; simpl.
  - eauto.
  - destruct (Hb x s) as (t & Ht & HPt); [set_solver|done|].
    rewrite Ht. simpl. apply IH; [done|]. intros y u Hy Hu. apply Hb; [set_solver|done].
Qed.

Lemma lookup_repeat_lt {A} (x : A) n k : (k < n)%nat -> repeat x n !! k = Some x.
Proof. revert k. induction n as [|n IH]; intros [|k] Hk; simpl; auto with lia. Qed.

Module ClusterFacts.
Import Frame Cluster.

Example kmeans_example :
  kmeans_cluster_stack 3 [[1; 2]; [3; 4]; [5; 6]] [0; 2; 0]%nat
  = Ok (mk_cluster_result [[6; 8]; [0; 0]; [3; 4]] [2; 0; 1]%nat [2; 0; 1]%nat).
Proof. reflexivity. Qed.

(** [collect] succeeds when every labelled member exists, and returns
    [groups.count(i)] frames. *)
Lemma collect_ok d groups hw i :
  (length groups <= length d)%nat ->
  exists arr, collect d groups hw i = Ok arr /\ length arr = count groups i.
Proof.
  intros Hlen. unfold collect.
  destruct (for_each_ok (fun acc : list frame * nat => length (fst acc) = count groups i)
              (seq 0 (length groups)) (repeat (zeros hw) (count groups i), 0%nat)
              (fun j '(cluster_array, cluster_idx) =>
                 if decide (groups !! j = Some i) then
                   match d !! j with
                   | Some f => Ok (<[cluster_idx:=f]> cluster_array, S cluster_idx)
                   | None => Err IndexError
                   end
                 else Ok (cluster_array, cluster_idx)))
    as (acc & Hacc & Hl).
  - simpl. apply repeat_length.
  - intros j [arr idx] Hj Harr. simpl in Harr.
    apply list_elem_of_In, in_seq in Hj.
    case_decide.
    + destruct (d !! j) as [f|] eqn:Hf.
      * eexists. split; [reflexivity|]. simpl. by rewrite length_insert.
      * apply lookup_ge_None in Hf. lia.
    + eexists. split; [reflexivity|]. done.
  - exists (fst acc). rewrite Hacc. simpl. auto.
Qed.

(** C8: a cluster to which no member is assigned gets an all-zero average
    frame and a member count of zero, and the call returns normally (the
    classifier labels every member of the stack). *)
Theorem kmeans_empty_cluster_is_zero (clusters : nat) (d : list frame)
    (groups : list nat) (i : nat) :
  length groups = length d -> (i < clusters)%nat -> count groups i = 0%nat ->
  exists r, kmeans_cluster_stack clusters d groups = Ok r /\
    avg_stack r !! i = Some (zeros (frame_size d)) /\
    member_counts r !! i = Some 0%nat /\
    cluster_members r !! i = Some 0%nat.
Proof.
  intros Hlen Hi Hc. unfold kmeans_cluster_stack.
  set (hw := frame_size d).
  destruct (for_each_ok
              (fun avg : list frame => length avg = clusters /\
                 (forall k, (k < clusters)%nat -> count groups k = 0%nat ->
                    avg !! k = Some (zeros hw)))
              (seq 0 clusters) (repeat (zeros hw) clusters)
              (fun i avg_stack =>
                 let* cluster_array := collect d groups hw i in
                 Ok (<[i:=sum_axis0 hw cluster_array]> avg_stack)))
    as (avg & Havg & Hl & Hz).
  - split; [apply repeat_length|]. intros k Hk _.
    by apply lookup_repeat_lt.
  - intros j avg Hj [Hl Hz].
    destruct (collect_ok d groups hw j) as (arr & Harr & Harrl); [lia|].
    rewrite Harr. simpl. eexists. split; [reflexivity|].
    split; [by rewrite length_insert|].
    intros k Hk Hck. destruct (decide (j = k)) as [->|Hne].
    + rewrite list_lookup_insert_eq by lia. rewrite Hck in Harrl.
      destruct arr; [|discriminate]. done.
    + rewrite list_lookup_insert_ne by done. auto.
  - rewrite Havg. simpl. eexists. split; [reflexivity|]. simpl.
    split; [auto|].
    assert (map (count groups) (seq 0 clusters) !! i = Some 0%nat) as Hm.
    { rewrite list_lookup_fmap, lookup_seq_lt by done. simpl. by rewrite Hc. }
    auto.
Qed.

Lemma kmeans_empty_cluster_is_zero_witness :
  exists r, kmeans_cluster_stack 3 [[1; 2]; [3; 4]; [5; 6]] [0; 2; 0]%nat = Ok r /\
    avg_stack r !! 1%nat = Some (zeros (frame_size [[1; 2]; [3; 4]; [5; 6]])) /\
    member_counts r !! 1%nat = Some 0%nat /\
    cluster_members r !! 1%nat = Some 0%nat.
Proof.
  apply kmeans_empty_cluster_is_zero; reflexivity || lia.
Defined.

(** C3 (failing input): two 1-pixel frames of value 1, both in the single
    cluster.  The code stores [np.sum] of the members, 2, as the cluster's
    "average" frame, while their elementwise mean is 1. *)
Theorem kmeans_average_is_member_sum :
  kmeans_cluster_stack 1 [[1]; [1]] [0; 0]%nat
  = Ok (mk_cluster_result [[2]] [2%nat] [2%nat]) /\
  cluster_mean_spec 1 [[1]; [1]] = [2 / 2] /\ ~ (2 / 2 == 2).
Proof.
  split; [reflexivity|]. split; [reflexivity|]. vm_compute. discriminate.
Qed.

End ClusterFacts.

(** ** Claims about component selection and the overlays *)

Module OverlayFacts.
Import Frame NumpyIndex Overlay.

Section WithAttribs.
Variable pai : frame -> Z -> list (list Q).

(** C5 (as the code does it): with no [original_files] (crops not
    tracked), [plot_image_overlay] warns and returns [None]; it raises
    nothing.  (The receiver is taken bound, [Some s].) *)
Theorem image_overlay_without_files_returns_none (s : img) plot_component
    peak_mva peak_id plot_char plot_shift :
  original_files s = None ->
  plot_image_overlay (Some s) plot_component peak_mva peak_id plot_char plot_shift
  = Ok (Some NoOriginalFiles, None).
Proof. intros H. unfold plot_image_overlay. by rewrite H. Qed.

(** The slicing of [plot_cell_overlays] once [self] denotes an image whose
    targets are known and whose chosen factor vector [comp] has a 7-entry
    block per target. *)
Lemma assign_slice2_in_range v a :
  (a + 2 <= length v)%nat -> assign_slice2 v a = Ok (nth a v 0, nth (S a) v 0).
Proof.
  revert v. induction a as [|a IH]; intros [|x [|y v]] Ha; simpl in *; try lia.
  - done.
  - unfold assign_slice2 in *. simpl. apply (IH (y :: v)). simpl. lia.
Qed.

Lemma for_each_seq {T} (Inv : nat -> T -> Prop) (body : nat -> T -> result T) a k s :
  Inv a s ->
  (forall i t, (a <= i < a + k)%nat -> Inv i t -> exists t', body i t = Ok t' /\ Inv (S i) t') ->
  exists s', for_each (seq a k) s body = Ok s' /\ Inv (a + k)%nat s'.
Proof.
  revert a s. induction k as [|k IH]; intros a s Hs Hb; simpl.
  - rewrite Nat.add_0_r. eauto.
  - destruct (Hb a s) as (t & Ht & Hit); [lia|done|]. rewrite Ht. simpl.
    replace (a + S k)%nat with (S a + k)%nat by lia.
    apply IH; [done|]. intros i u Hi Hu. apply Hb; [lia|done].
Qed.

(** Run the position loop of [plot_cell_overlays] under the invariant
    [Inv]; leaves its start, its step and the final goal. *)
Ltac overlay_loop Inv :=
  match goal with
  | |- context [for_each (seq 0 ?m) ?s0 ?body] =>
      let acc := fresh "acc" in let Hacc := fresh "Hacc" in let Hinv := fresh "Hinv" in
      destruct (for_each_seq Inv body 0 m s0) as (acc & Hacc & Hinv);
      [..|rewrite Hacc; simpl]
  end.

Lemma cell_overlay_slices (s : img) stl c mva comp (w : Z) :
  target_locations s = Some stl ->
  ((String.eqb (upper mva) "PCA" = true /\ column (peak_mva_pc s) c = Ok comp) \/
   (String.eqb (upper mva) "PCA" = false /\ String.eqb (upper mva) "ICA" = true /\
    column (peak_mva_ic s) c = Ok comp)) ->
  (4 <= w <= 6)%Z -> (7 * length stl <= length comp)%nat ->
  exists ov, plot_cell_overlays pai (Some s) (Some c) mva (Some w) = Ok (s, ov) /\
    ov_targets ov = stl /\
    forall p, (p < length stl)%nat ->
      ov_shifts ov !! p = Some (nth (7 * p + 2) comp 0, nth (7 * p + 3) comp 0) /\
      ov_char ov !! p = Some (nth (7 * p + Z.to_nat w) comp 0).
Proof.
  intros Hstl Hcomp Hw Hlen. unfold plot_cell_overlays. rewrite Hstl. simpl.
  set (n := length stl).
  set (Inv := fun k (acc : list (Q * Q) * list Q) =>
    length (fst acc) = n /\ length (snd acc) = n /\
    forall p, (p < k)%nat ->
      fst acc !! p = Some (nth (7 * p + 2) comp 0, nth (7 * p + 3) comp 0) /\
      snd acc !! p = Some (nth (7 * p + Z.to_nat w) comp 0)).
  assert (Ht : Z.eqb w 0 = false) by (apply Z.eqb_neq; lia).
  destruct Hcomp as [[Hp Hc]|[Hp [Hi Hc]]];
    [rewrite Hp, Hc | rewrite Hp, Hi, Hc]; simpl; rewrite ?Ht, ?Hstl; simpl;
    overlay_loop Inv; [| |eexists; split; [reflexivity|]; split; [done|]; apply Hinv
                          | | |eexists; split; [reflexivity|]; split; [done|]; apply Hinv].
  all: try (split; [apply repeat_length|]; split; [apply repeat_length|]; intros; lia).
  all: intros i [shifts char] Hi' (Hl1 & Hl2 & Hprev); simpl in Hl1, Hl2, Hprev;
    rewrite assign_slice2_in_range by lia; simpl; unfold get, py_index;
    rewrite decide_True by lia; simpl; eexists; split; [reflexivity|];
    split; [simpl; by rewrite length_insert|];
    split; [simpl; by rewrite length_insert|];
    intros p Hpi; simpl; destruct (decide (p = i)) as [->|Hne];
    [rewrite !list_lookup_insert_eq by lia; split; repeat f_equal; lia
    |rewrite !list_lookup_insert_ne by done; apply Hprev; lia].
Qed.

(** C6 (failing input): [plot_cell_overlays] is declared without a [self]
    parameter while its body reads [self.data]; every call raises
    [NameError] before any factor vector is sliced (with [self] bound, the
    slicing is the one the claim describes: [cell_overlay_slices]). *)
Theorem cell_overlays_unbound_self_fails plot_component mva_type plot_char :
  plot_cell_overlays pai None plot_component mva_type plot_char = Err NameError.
Proof. reflexivity. Qed.

(** C9 (failing input): with the target set omitted, [plot_peak_ids]
    labels the [(x, y)] fields of the peaks detected on the average frame;
    [plot_cell_overlays], declared without [self], raises [NameError]
    before deriving anything, although with [self] bound it derives the
    targets the same way (peak width defaulting to 10) and stores them. *)
Theorem targets_from_average_frame :
  (forall cell_data pw,
     plot_peak_ids pai cell_data None pw
     = zip (map first2 (pai (average cell_data) pw))
           (seq 0 (length (map first2 (pai (average cell_data) pw))))) /\
  (forall plot_component mva_type plot_char,
     plot_cell_overlays pai None plot_component mva_type plot_char = Err NameError) /\
  (forall s plot_component mva_type plot_char s' ov,
     target_locations s = None ->
     plot_cell_overlays pai (Some s) plot_component mva_type plot_char = Ok (s', ov) ->
     ov_targets ov = map first2 (pai (average (data s)) (default 10%Z (peak_width s))) /\
     target_locations s' = Some (ov_targets ov)).
Proof.
  split; [|split].
  - intros cell_data pw. reflexivity.
  - intros. reflexivity.
  - intros s pc mva pch s' ov Hnone. unfold plot_cell_overlays. rewrite Hnone.
    simpl. destruct (match pc with Some _ => _ | None => _ end) as [comp|e];
      simpl; [|discriminate].
    destruct (for_each _ _ _) as [acc|e]; simpl; [|discriminate].
    intros [= <- <-]. simpl. auto.
Qed.

End WithAttribs.

Lemma image_overlay_without_files_returns_none_witness :
  plot_image_overlay (Some empty_img) (Some 0%Z) true None None false
  = Ok (Some NoOriginalFiles, None).
Proof. apply image_overlay_without_files_returns_none. reflexivity. Defined.

(** C5 fails: asked for the shifts of peak 0 on an image without a
    catalogue, [plot_image_overlay] raises no [NoProvenance] (or any other)
    error; it returns normally with [None] after a warning. *)
Lemma image_overlay_without_files_no_error :
  plot_image_overlay (Some empty_img) None true (Some 0%Z) None true
  = Ok (Some NoOriginalFiles, None).
Proof. reflexivity. Qed.

End OverlayFacts.

(** * Further properties of the code *)

(** ** Loops that fail *)

Lemma for_each_err_only {A S} (xs : list A) (s : S) body e :
  (forall y t e', body y t = Err e' -> e' = e) ->
  forall e', for_each xs s body = Err e' -> e' = e.
Proof.
  intros Hb. revert s. induction xs as [|x xs IH]; intros s e' H; simpl in H; [discriminate|].
  destruct (body x s) as [t|e''] eqn:E; simpl in H.
  - eapply IH; eauto.
  - injection H as <-. eauto.
Qed.

(** A loop raises [e] when every failure of its body is [e] and the body
    fails at some element, in every state the loop can reach. *)
Lemma for_each_fails {A S} (P : S -> Prop) (xs : list A) (s : S) body e x :
  P s -> (forall y t t', P t -> body y t = Ok t' -> P t') ->
  (forall y t e', body y t = Err e' -> e' = e) ->
  x ∈ xs -> (forall t, P t -> exists e', body x t = Err e') ->
  for_each xs s body = Err e.
Proof.
  intros Hs Hp Herr Hx Hfail. revert s Hs.
  induction xs as [|y xs IH]; intros s Hs; [set_solver|]. simpl.
  destruct (body y s) as [t|e'] eqn:E; simpl.
  - apply elem_of_cons in Hx as [->|Hx].
    + destruct (Hfail s Hs) as [e' He']. congruence.
    + apply IH; [done|]. eapply Hp; eauto.
  - f_equal. eauto.
Qed.

Lemma bind_Ok {A B} (m : result A) (k : A -> result B) v :
  bind m k = Ok v -> exists a, m = Ok a /\ k a = Ok v.
Proof. destruct m; simpl; [eauto|discriminate]. Qed.

Lemma trim_id_le {T} (sum : T -> Q) (buf : list T) k s :
  buf !! k = Some s -> sum s == 0 ->
  exists t, (t <= k)%nat /\ PeakFind.trim_id sum buf = Ok t.
Proof.
  intros Hk Hs. unfold PeakFind.trim_id.
  destruct (PeakFind.first_zero_from sum 0 buf) as [t|] eqn:E.
  - apply PeakFindFacts.first_zero_from_Some in E as (_ & _ & Hnz).
    rewrite Nat.sub_0_r in Hnz. exists t. split; [|done].
    destruct (le_lt_dec t k) as [H|H]; [done|].
    exfalso. by apply (Hnz k s).
  - pose proof (proj1 (PeakFindFacts.first_zero_from_None sum buf 0) E) as E0.
    exfalso. apply (E0 s); [by eapply list_elem_of_lookup_2|done].
Qed.

Lemma slot_sum3_all_zero (s : list coord) :
  (forall c, c ∈ s -> c = zero_coord) -> PeakFind.slot_sum3 s == 0.
Proof.
  induction s as [|c s IH]; intros H; [reflexivity|].
  unfold PeakFind.slot_sum3 in *. simpl.
  rewrite (H c) by set_solver. rewrite IH by (intros; apply H; set_solver).
  unfold PeakFind.coord_sum, zero_coord. simpl. ring.
Qed.

Module PeakFindMore.
Import PeakFind.
Section PeakFindMore.
Variable frame : Type.
Variable det : frame -> bool -> Z -> Z -> list coord.

Lemma assign3_errors buf i tmp e : assign3 buf i tmp = Err e -> e = ValueError.
Proof. unfold assign3. case_decide; congruence. Qed.

Lemma assign4_errors buf i j tmp e : assign4 buf i j tmp = Err e -> e = ValueError.
Proof. unfold assign4. case_decide; congruence. Qed.

Lemma fill3_errors subpixel pw mr m fs e :
  fill3 frame det subpixel pw mr m fs = Err e -> e = ValueError.
Proof.
  unfold fill3. apply for_each_err_only. intros i t e'.
  destruct (fs !! i); [apply assign3_errors|discriminate].
Qed.

Lemma fill4_errors subpixel pw mr m fss e :
  fill4 frame det subpixel pw mr m fss = Err e -> e = ValueError.
Proof.
  unfold fill4. apply for_each_err_only. intros i t e'.
  apply for_each_err_only. intros j u e''.
  destruct (_ !! j); [apply assign4_errors|discriminate].
Qed.

Lemma fill4_step_length subpixel pw mr m (fss : list (list frame)) i t t' :
  length t = m ->
  (let row := default [] (fss !! i) in
   for_each (seq 0 (length row)) t (fun j buf' =>
     match row !! j with
     | Some f => assign4 buf' i j (det f subpixel pw mr)
     | None => Ok buf'
     end)) = Ok t' -> length t' = m.
Proof.
  intros Ht. apply (for_each_inv (fun b => length b = m)); [done|].
  intros j u u' Hu. destruct (_ !! j); [|by intros [= <-]].
  unfold assign4. case_decide; [|discriminate].
  intros [= <-]. by rewrite PeakFindFacts.write_rows_length.
Qed.

(** [peakfind_2D], 3-D and 4-D branches: a frame on which the detector
    finds more than [maxpeakn] peaks cannot be written into the
    preallocated buffer ([peaks[:k]] has only [maxpeakn] rows), and the call
    raises [ValueError]. *)
Theorem peakfind_overflow_raises subpixel pw mr maxpeakn (pk : option peaks_val) :
  (forall fs f, f ∈ fs -> (maxpeakn < length (det f subpixel pw mr))%nat ->
     peakfind_2D frame det subpixel pw mr maxpeakn (mk_image (Arr3 fs) pk)
     = Err ValueError) /\
  (forall fss row f, row ∈ fss -> f ∈ row ->
     (maxpeakn < length (det f subpixel pw mr))%nat ->
     peakfind_2D frame det subpixel pw mr maxpeakn (mk_image (Arr4 fss) pk)
     = Err ValueError).
Proof.
  split.
  - intros fs f Hf Hlen. unfold peakfind_2D. simpl.
    apply list_elem_of_lookup_1 in Hf as [i Hi].
    assert (fill3 frame det subpixel pw mr maxpeakn fs = Err ValueError) as ->; [|done].
    unfold fill3. apply (for_each_fails (fun b => length b = maxpeakn) _ _ _ _ i).
    + unfold zeros3. apply repeat_length.
    + intros j t t' Ht. destruct (fs !! j); [|by intros [= <-]].
      unfold assign3. case_decide; [|discriminate].
      intros [= <-]. by rewrite PeakFindFacts.write_rows_length.
    + intros j t e'. destruct (fs !! j); [apply assign3_errors|discriminate].
    + apply list_elem_of_In, in_seq. apply lookup_lt_Some in Hi. lia.
    + intros t Ht. rewrite Hi. unfold assign3. rewrite decide_False by lia. eauto.
  - intros fss row f Hrow Hf Hlen. unfold peakfind_2D. simpl.
    apply list_elem_of_lookup_1 in Hrow as [i Hi].
    apply list_elem_of_lookup_1 in Hf as [j Hj].
    assert (fill4 frame det subpixel pw mr maxpeakn fss = Err ValueError) as ->; [|done].
    unfold fill4. apply (for_each_fails (fun b => length b = maxpeakn) _ _ _ _ i).
    + unfold zeros4. apply repeat_length.
    + intros y t t' Ht. apply fill4_step_length. done.
    + intros y t e'. apply for_each_err_only. intros y' u e''.
      destruct (_ !! y'); [apply assign4_errors|discriminate].
    + apply list_elem_of_In, in_seq. apply lookup_lt_Some in Hi. lia.
    + intros t Ht. rewrite Hi. simpl.
      exists ValueError.
      apply (for_each_fails (fun b => length b = maxpeakn) _ _ _ _ j).
      * done.
      * intros y u u' Hu. destruct (row !! y); [|by intros [= <-]].
        unfold assign4. case_decide; [|discriminate].
        intros [= <-]. by rewrite PeakFindFacts.write_rows_length.
      * intros y u e'. destruct (row !! y); [apply assign4_errors|discriminate].
      * apply list_elem_of_In, in_seq. apply lookup_lt_Some in Hj. lia.
      * intros u Hu. rewrite Hj. unfold assign4. rewrite decide_False by lia. eauto.
Qed.

(** [peakfind_2D], 3-D and 4-D branches, with [maxpeakn = 0]: the buffer
    has no slot, so [np.min] of the empty index set (or the write of a
    non-empty detection) raises [ValueError], whatever the stack. *)
Theorem peakfind_zero_capacity_raises subpixel pw mr (pk : option peaks_val) :
  (forall fs, peakfind_2D frame det subpixel pw mr 0 (mk_image (Arr3 fs) pk)
              = Err ValueError) /\
  (forall fss, peakfind_2D frame det subpixel pw mr 0 (mk_image (Arr4 fss) pk)
               = Err ValueError).
Proof.
  split.
  - intros fs. unfold peakfind_2D. simpl.
    destruct (fill3 frame det subpixel pw mr 0 fs) as [buf|e] eqn:Hf; simpl.
    + apply PeakFindFacts.fill3_length in Hf. by destruct buf.
    + f_equal. by eapply fill3_errors.
  - intros fss. unfold peakfind_2D. simpl.
    destruct (fill4 frame det subpixel pw mr 0 fss) as [buf|e] eqn:Hf; simpl.
    + apply PeakFindFacts.fill4_length in Hf. by destruct buf.
    + f_equal. by eapply fill4_errors.
Qed.

(** [peakfind_2D], 3-D and 4-D branches: when the detector finds at most
    [k] peaks on every frame and [k < maxpeakn], the call returns normally;
    slot [k] of the buffer stays all-zero, so at most [k] slots are kept, and
    in 3-D slot [p] holds the [p]-th detected peak of every image ([(0, 0)]
    for an image with fewer peaks). *)
Theorem peakfind_fits_returns subpixel pw mr maxpeakn k (pk : option peaks_val) :
  (k < maxpeakn)%nat ->
  (forall fs, (forall f, f ∈ fs -> (length (det f subpixel pw mr) <= k)%nat) ->
     exists t, (t <= k)%nat /\
       peakfind_2D frame det subpixel pw mr maxpeakn (mk_image (Arr3 fs) pk)
       = Ok (mk_image (Arr3 fs) (Some (P3 (take t
           (map (fun p => map (fun f => default zero_coord (det f subpixel pw mr !! p)) fs)
                (seq 0 maxpeakn))))))) /\
  (forall fss, (forall row f, row ∈ fss -> f ∈ row ->
                  (length (det f subpixel pw mr) <= k)%nat) ->
     exists buf t, fill4 frame det subpixel pw mr maxpeakn fss = Ok buf /\
       (t <= k)%nat /\
       peakfind_2D frame det subpixel pw mr maxpeakn (mk_image (Arr4 fss) pk)
       = Ok (mk_image (Arr4 fss) (Some (P4 (take t buf))))).
Proof.
  intros Hk. split.
  - intros fs Hfit. unfold peakfind_2D. simpl.
    rewrite PeakFindFacts.fill3_closed.
    2:{ intros f Hf. specialize (Hfit f Hf). lia. }
    simpl.
    destruct (trim_id_le slot_sum3
                (map (fun p => map (fun f => default zero_coord (det f subpixel pw mr !! p)) fs)
                     (seq 0 maxpeakn)) k
                (map (fun f => default zero_coord (det f subpixel pw mr !! k)) fs))
      as (t & Ht & ->).
    + rewrite list_lookup_fmap, lookup_seq_lt by done. done.
    + apply slot_sum3_all_zero. intros c Hc.
      apply list_elem_of_In, in_map_iff in Hc as (f & <- & Hf).
      apply list_elem_of_In in Hf.
      rewrite lookup_ge_None_2; [done|]. by apply Hfit.
    + simpl. exists t. done.
  - intros fss Hfit.
    set (z := map (fun row => repeat zero_coord (length row)) fss).
    destruct (for_each_ok (fun b => length b = maxpeakn /\
                 forall p, (k <= p < maxpeakn)%nat -> b !! p = Some z)
                (seq 0 (length fss)) (zeros4 frame maxpeakn fss)
                (fun i buf =>
                   let row := default [] (fss !! i) in
                   for_each (seq 0 (length row)) buf (fun j buf' =>
                     match row !! j with
                     | Some f => assign4 buf' i j (det f subpixel pw mr)
                     | None => Ok buf'
                     end)))
      as (buf & Hbuf & Hlen & Hz).
    + unfold zeros4. split; [apply repeat_length|].
      intros p Hp. apply lookup_repeat_lt. lia.
    + intros i t Hi Ht. simpl.
      apply (for_each_ok (fun b => length b = maxpeakn /\
               forall p, (k <= p < maxpeakn)%nat -> b !! p = Some z)); [done|].
      intros j u Hj [Hu Huz].
      destruct (fss !! i) as [row|] eqn:Hrow; simpl in *.
      2:{ set_solver. }
      destruct (row !! j) as [f|] eqn:Hf; [|eauto].
      assert (length (det f subpixel pw mr) <= k)%nat as Hdk.
      { apply (Hfit row); eapply list_elem_of_lookup_2; eauto. }
      unfold assign4. rewrite decide_True by lia.
      eexists. split; [reflexivity|]. split.
      * by rewrite PeakFindFacts.write_rows_length.
      * intros p Hp. rewrite PeakFindFacts.write_rows_lookup, Huz by done.
        simpl. by rewrite lookup_ge_None_2 by lia.
    + assert (fill4 frame det subpixel pw mr maxpeakn fss = Ok buf) as Hfill
        by exact Hbuf.
      destruct (trim_id_le slot_sum4 buf k z) as (t & Ht & Htrim).
      * apply Hz. lia.
      * apply PeakFindFacts.slot_sum4_zeros.
      * exists buf, t. split; [done|]. split; [done|].
        unfold peakfind_2D. simpl. rewrite Hfill. simpl.
        by rewrite Htrim.
Qed.

(** [peakfind_2D], 3-D branch: when the first peak the detector reports on
    every image is the pixel origin [(0, 0)], slot 0 sums to zero and the
    buffer is cut to no slot at all: every later peak is discarded. *)
Theorem peakfind_origin_peaks_discard_all subpixel pw mr maxpeakn
    (pk : option peaks_val) (fs : list frame) :
  (1 <= maxpeakn)%nat ->
  (forall f, f ∈ fs -> exists rest : list coord, det f subpixel pw mr = (0, 0) :: rest /\
                                    (length rest < maxpeakn)%nat) ->
  peakfind_2D frame det subpixel pw mr maxpeakn (mk_image (Arr3 fs) pk)
  = Ok (mk_image (Arr3 fs) (Some (P3 []))).
Proof.
  intros Hm Hdet. unfold peakfind_2D. simpl.
  rewrite PeakFindFacts.fill3_closed.
  2:{ intros f Hf. destruct (Hdet f Hf) as (rest & -> & Hr). simpl. lia. }
  simpl. destruct maxpeakn as [|m]; [lia|].
  rewrite (PeakFindFacts.first_zero_at _ _ 0); [done| |intros p s Hp; lia].
  eexists. split; [reflexivity|].
  apply slot_sum3_all_zero. intros c Hc.
  apply list_elem_of_In, in_map_iff in Hc as (f & <- & Hf).
  apply list_elem_of_In in Hf. destruct (Hdet f Hf) as (rest & -> & _). done.
Qed.

End PeakFindMore.
End PeakFindMore.

(** ** Concrete instances of the further [peakfind_2D] properties *)

Lemma peakfind_overflow_raises_witness :
  PeakFind.peakfind_2D (list coord) self_detect false 10 5 1
    (PeakFind.mk_image (PeakFind.Arr3 [[(1, 2); (3, 4)]]) None) = Err ValueError.
Proof.
  apply (proj1 (PeakFindMore.peakfind_overflow_raises (list coord) self_detect
                  false 10 5 1 None) _ [(1, 2); (3, 4)]).
  - set_solver.
  - simpl. lia.
Defined.

Lemma peakfind_fits_returns_witness :
  exists t, (t <= 1)%nat /\
    PeakFind.peakfind_2D (list coord) self_detect false 10 5 3
      (PeakFind.mk_image (PeakFind.Arr3 [[(1, 2)]; []]) None)
    = Ok (PeakFind.mk_image (PeakFind.Arr3 [[(1, 2)]; []])
            (Some (PeakFind.P3 (take t
               (map (fun p => map (fun f => default zero_coord (self_detect f false 10 5 !! p))
                                  [[(1, 2)]; []])
                    (seq 0 3)))))).
Proof.
  apply (proj1 (PeakFindMore.peakfind_fits_returns (list coord) self_detect
                  false 10 5 3 1 None ltac:(lia))).
  intros f Hf. apply list_elem_of_In in Hf. simpl in Hf.
  destruct Hf as [<-|[<-|[]]]; simpl; lia.
Defined.

Lemma peakfind_origin_peaks_discard_all_witness :
  PeakFind.peakfind_2D (list coord) self_detect false 10 5 3
    (PeakFind.mk_image (PeakFind.Arr3 [[(0, 0); (3, 4)]; [(0, 0)]]) None)
  = Ok (PeakFind.mk_image (PeakFind.Arr3 [[(0, 0); (3, 4)]; [(0, 0)]])
          (Some (PeakFind.P3 []))).
Proof.
  apply PeakFindMore.peakfind_origin_peaks_discard_all; [lia|].
  intros f Hf. apply list_elem_of_In in Hf. simpl in Hf.
  destruct Hf as [<-|[<-|[]]]; eexists; (split; [reflexivity|]); simpl; lia.
Defined.

(** ** Further properties of [kmeans_cluster_stack] *)

Module ClusterMore.
Import Frame Cluster.

(** The inner loop of cluster [i] copies, in order, every frame labelled
    [i] into [cluster_array]. *)
Lemma collect_members d groups hw i :
  (length groups <= length d)%nat -> collect d groups hw i = Ok (members_of groups d i).
Proof.
  intros Hlen. unfold collect.
  assert (Hloop : forall k a (M : list frame) r,
    (a + k = length groups)%nat -> (count (drop a groups) i <= r)%nat ->
    for_each (seq a k) (M ++ repeat (zeros hw) r, length M)
      (fun j '(cluster_array, cluster_idx) =>
         if decide (groups !! j = Some i) then
           match d !! j with
           | Some f => Ok (<[cluster_idx:=f]> cluster_array, S cluster_idx)
           | None => Err IndexError
           end
         else Ok (cluster_array, cluster_idx))
    = Ok (M ++ members_of (drop a groups) (drop a d) i
            ++ repeat (zeros hw) (r - count (drop a groups) i),
          (length M + count (drop a groups) i)%nat)).
  { induction k as [|k IH]; intros a M r Hak Hr.
    - rewrite (drop_ge groups a) by lia. simpl.
      rewrite Nat.sub_0_r, Nat.add_0_r. done.
    - destruct (groups !! a) as [g|] eqn:Hg; [|apply lookup_ge_None in Hg; lia].
      destruct (d !! a) as [f|] eqn:Hf; [|apply lookup_ge_None in Hf; lia].
      rewrite (drop_S groups g a Hg), (drop_S d f a Hf) in *.
      cbn [seq for_each]. rewrite Hg. unfold count in *.
      destruct (decide (g = i)) as [->|Hne].
      + rewrite decide_True by done. rewrite Hf. simpl bind.
        rewrite count_occ_cons_eq in * by done.
        destruct r as [|r]; [lia|]. simpl repeat.
        rewrite insert_app_r_alt, Nat.sub_diag by lia. simpl.
        replace (M ++ f :: repeat (zeros hw) r) with ((M ++ [f]) ++ repeat (zeros hw) r)
          by (rewrite <- app_assoc; done).
        replace (S (length M)) with (length (M ++ [f])) by (rewrite length_app; simpl; lia).
        rewrite IH by lia. rewrite decide_True by done.
        rewrite <- app_assoc, length_app. simpl. do 2 f_equal. lia.
      + rewrite decide_False by congruence. simpl bind.
        rewrite count_occ_cons_neq in * by done.
        rewrite IH by lia. simpl. rewrite decide_False by done. done. }
  pose proof (Hloop (length groups) 0%nat [] (count groups i)) as H0.
  rewrite drop_0 in H0. simpl in H0. rewrite H0 by lia.
  simpl. rewrite Nat.sub_diag, app_nil_r. done.
Qed.

(** [kmeans_cluster_stack]: as long as every label names a frame of the
    stack, the call returns normally with one frame per cluster, and frame
    [i] of [avg_stack] is the elementwise sum [np.sum(cluster_array,
    axis=0)] of the frames labelled [i] (all zeros for an empty cluster). *)
Theorem kmeans_avg_stack_sums_members clusters d groups :
  (length groups <= length d)%nat ->
  exists r, kmeans_cluster_stack clusters d groups = Ok r /\
    length (avg_stack r) = clusters /\
    forall i, (i < clusters)%nat ->
      avg_stack r !! i = Some (sum_axis0 (frame_size d) (members_of groups d i)).
Proof.
  intros Hlen.
  destruct (OverlayFacts.for_each_seq
    (fun k (avg : list frame) => length avg = clusters /\
       forall i, (i < k)%nat -> avg !! i = Some (sum_axis0 (frame_size d) (members_of groups d i)))
    (fun i avg_stack =>
       let* cluster_array := collect d groups (frame_size d) i in
       Ok (<[i:=sum_axis0 (frame_size d) cluster_array]> avg_stack))
    0 clusters (repeat (zeros (frame_size d)) clusters))
    as (avg & Havg & Hl & Hs).
  - split; [apply repeat_length|]. intros; lia.
  - intros i t Hi [Ht Hprev]. rewrite collect_members by done. simpl.
    eexists. split; [reflexivity|]. split; [by rewrite length_insert|].
    intros p Hp. destruct (decide (p = i)) as [->|Hne].
    + by rewrite list_lookup_insert_eq by lia.
    + rewrite list_lookup_insert_ne by done. apply Hprev. lia.
  - unfold kmeans_cluster_stack. simpl. rewrite Havg. simpl.
    eexists. split; [reflexivity|]. simpl. auto.
Qed.

Lemma sum_counts (groups : list nat) c :
  sum_list (map (count groups) (seq 0 c))
  = length (filter (fun g => (g < c)%nat) groups).
Proof.
  induction c as [|c IH].
  - simpl. induction groups as [|g gs IHg]; [done|].
    rewrite filter_cons_False by lia. done.
  - rewrite seq_S, map_app, sum_list_with_app, IH. simpl. clear IH.
    unfold count. induction groups as [|g gs IHg]; [done|].
    destruct (lt_eq_lt_dec g c) as [[Hlt| ->]|Hgt].
    + rewrite !filter_cons_True by lia. rewrite count_occ_cons_neq by lia.
      simpl. lia.
    + rewrite filter_cons_False, filter_cons_True by lia.
      rewrite count_occ_cons_eq by done. simpl. lia.
    + rewrite !filter_cons_False by lia. rewrite count_occ_cons_neq by lia. lia.
Qed.

(** [kmeans_cluster_stack]: [member_counts] has one entry per cluster, and
    the entries add up to the number of labels naming a requested cluster
    (every member of the stack, when the classifier labels each with a
    cluster below [clusters]). *)
Theorem kmeans_member_counts_total clusters d groups r :
  kmeans_cluster_stack clusters d groups = Ok r ->
  length (member_counts r) = clusters /\
  sum_list (member_counts r) = length (filter (fun g => (g < clusters)%nat) groups).
Proof.
  unfold kmeans_cluster_stack. intros H.
  apply bind_Ok in H as (avg & _ & H). injection H as <-. simpl.
  split; [by rewrite length_map, length_seq|]. apply sum_counts.
Qed.

Lemma collect_errors d groups hw i e : collect d groups hw i = Err e -> e = IndexError.
Proof.
  unfold collect. destruct (for_each _ _ _) eqn:E; simpl; [discriminate|].
  intros [= <-]. revert E. apply for_each_err_only.
  intros y [ca ci] e'. simpl. case_decide; [destruct (d !! y); congruence|congruence].
Qed.

(** [kmeans_cluster_stack]: a label [groups[j] = i] of a requested cluster
    at a position [j] past the end of the stack makes [d[j,:,:]] raise
    [IndexError]. *)
Theorem kmeans_label_beyond_stack_raises clusters d groups j i :
  (length d <= j)%nat -> groups !! j = Some i -> (i < clusters)%nat ->
  kmeans_cluster_stack clusters d groups = Err IndexError.
Proof.
  intros Hj Hg Hi.
  assert (Hc : forall hw, collect d groups hw i = Err IndexError).
  { intros hw. unfold collect.
    match goal with |- context [for_each ?xs ?s0 ?body] =>
      assert (for_each xs s0 body = Err IndexError) as ->; [|reflexivity];
      apply (for_each_fails (fun _ => True) xs s0 body IndexError j) end.
    - done.
    - done.
    - intros y [ca ci] e'. simpl. case_decide; [destruct (d !! y); congruence|congruence].
    - apply list_elem_of_In, in_seq. apply lookup_lt_Some in Hg. lia.
    - intros [ca ci] _. simpl. rewrite decide_True by done.
      rewrite lookup_ge_None_2 by done. eauto. }
  unfold kmeans_cluster_stack.
  match goal with |- context [for_each ?xs ?s0 ?body] =>
    assert (for_each xs s0 body = Err IndexError) as ->; [|reflexivity];
    apply (for_each_fails (fun _ => True) xs s0 body IndexError i) end.
  - done.
  - done.
  - intros y t e'. destruct (collect d groups _ y) eqn:E; simpl; [discriminate|].
    intros [= <-]. by eapply collect_errors.
  - apply list_elem_of_In, in_seq. lia.
  - intros t _. rewrite Hc. simpl. eauto.
Qed.

Lemma kmeans_avg_stack_sums_members_witness :
  exists r, kmeans_cluster_stack 3 [[1; 2]; [3; 4]; [5; 6]] [0; 2; 0]%nat = Ok r /\
    length (avg_stack r) = 3%nat /\
    forall i, (i < 3)%nat ->
      avg_stack r !! i
      = Some (sum_axis0 (frame_size [[1; 2]; [3; 4]; [5; 6]])
                        (members_of [0; 2; 0]%nat [[1; 2]; [3; 4]; [5; 6]] i)).
Proof. apply kmeans_avg_stack_sums_members. simpl. lia. Defined.

Lemma kmeans_member_counts_total_witness :
  length (member_counts (mk_cluster_result [[6; 8]; [0; 0]; [3; 4]] [2; 0; 1]%nat [2; 0; 1]%nat))
  = 3%nat /\
  sum_list (member_counts (mk_cluster_result [[6; 8]; [0; 0]; [3; 4]] [2; 0; 1]%nat [2; 0; 1]%nat))
  = length (filter (fun g => (g < 3)%nat) [0; 2; 0]%nat).
Proof.
  apply (kmeans_member_counts_total 3 [[1; 2]; [3; 4]; [5; 6]] [0; 2; 0]%nat).
  reflexivity.
Defined.

Lemma kmeans_label_beyond_stack_raises_witness :
  kmeans_cluster_stack 2 [[1; 2]] [0; 1]%nat = Err IndexError.
Proof. apply (kmeans_label_beyond_stack_raises 2 [[1; 2]] [0; 1]%nat 1 1); simpl; lia || reflexivity. Defined.

End ClusterMore.

(** ** Further properties of [plot_cell_overlays] *)

Module OverlayMore.
Import Frame NumpyIndex Overlay.

Lemma column_out_of_range (m : matrix) c :
  (Z.of_nat (ncols m) <= c \/ c < - Z.of_nat (ncols m))%Z -> column m c = Err IndexError.
Proof.
  intros Hc. unfold column, py_index.
  rewrite decide_False by lia. rewrite decide_False by lia. done.
Qed.

Lemma assign_slice2_errors v a e : assign_slice2 v a = Err e -> e = ValueError.
Proof. unfold assign_slice2. destruct (drop a v) as [|x [|y l]]; congruence. Qed.

Lemma assign_slice2_short v a : (length v <= a)%nat -> assign_slice2 v a = Err ValueError.
Proof. intros H. unfold assign_slice2. by rewrite drop_ge. Qed.

Section OverlayMore.
Variable pai : frame -> Z -> list (list Q).

(** [plot_cell_overlays] (with [self] bound to an image with targets):
    [component] is assigned only when a component is given and [mva_type]
    is PCA or ICA; otherwise the first turn of the position loop reads the
    unbound local and raises [NameError]. *)
Theorem cell_overlays_unbound_component (s : img) stl plot_component mva_type plot_char :
  target_locations s = Some stl -> stl <> [] ->
  (plot_component = None \/
   (String.eqb (upper mva_type) "PCA" = false /\ String.eqb (upper mva_type) "ICA" = false)) ->
  plot_cell_overlays pai (Some s) plot_component mva_type plot_char = Err NameError.
Proof.
  intros Hstl Hne Hcase. unfold plot_cell_overlays. rewrite Hstl. simpl. rewrite Hstl. simpl.
  destruct stl as [|x stl']; [done|].
  destruct Hcase as [->|[Hp Hi]].
  - reflexivity.
  - destruct plot_component as [c|]; simpl; [rewrite Hp, Hi|]; reflexivity.
Qed.

(** [plot_cell_overlays] (with [self] bound): a component id outside the
    columns of the chosen factor matrix ([pc] for PCA, [ic] for ICA, upper
    or lower case) raises [IndexError] before anything is drawn. *)
Theorem cell_overlays_component_out_of_range (s : img) c mva_type plot_char :
  (String.eqb (upper mva_type) "PCA" = true /\
     (Z.of_nat (ncols (peak_mva_pc s)) <= c \/ c < - Z.of_nat (ncols (peak_mva_pc s)))%Z) \/
  (String.eqb (upper mva_type) "PCA" = false /\ String.eqb (upper mva_type) "ICA" = true /\
     (Z.of_nat (ncols (peak_mva_ic s)) <= c \/ c < - Z.of_nat (ncols (peak_mva_ic s)))%Z) ->
  plot_cell_overlays pai (Some s) (Some c) mva_type plot_char = Err IndexError.
Proof.
  intros Hcase. unfold plot_cell_overlays.
  destruct Hcase as [[Hp Hc]|[Hp [Hi Hc]]];
    destruct (target_locations s) eqn:Hstl; simpl; rewrite Hp; rewrite ?Hi;
    rewrite column_out_of_range by done; reflexivity.
Qed.

(** [plot_cell_overlays] (with [self] bound, no characteristic chosen):
    when the component vector is too short to hold entry [7*pos+2] of the
    last target, [shifts[pos]=component[pos*7+2:pos*7+4]] assigns an empty
    slice to a row of two and raises [ValueError]. *)
Theorem cell_overlays_short_component_raises (s : img) stl c mva_type comp :
  target_locations s = Some stl -> stl <> [] ->
  ((String.eqb (upper mva_type) "PCA" = true /\ column (peak_mva_pc s) c = Ok comp) \/
   (String.eqb (upper mva_type) "PCA" = false /\ String.eqb (upper mva_type) "ICA" = true /\
    column (peak_mva_ic s) c = Ok comp)) ->
  (length comp <= 7 * (length stl - 1) + 2)%nat ->
  plot_cell_overlays pai (Some s) (Some c) mva_type None = Err ValueError.
Proof.
  intros Hstl Hne Hcomp Hlen. unfold plot_cell_overlays. rewrite Hstl. simpl. rewrite Hstl.
  destruct Hcomp as [[Hp Hc]|[Hp [Hi Hc]]]; [rewrite Hp, Hc | rewrite Hp, Hi, Hc]; simpl;
  (match goal with |- context [for_each ?xs ?s0 ?body] =>
     assert (for_each xs s0 body = Err ValueError) as ->; [|reflexivity];
     apply (for_each_fails (fun _ => True) xs s0 body ValueError (length stl - 1)%nat) end).
  all: try done.
  all: try (intros y [sh ch] e'; simpl;
            destruct (assign_slice2 _ _) eqn:E; simpl; [discriminate|];
            intros [= <-]; by eapply assign_slice2_errors).
  all: try (apply list_elem_of_In, in_seq; destruct stl; [done|]; simpl; lia).
  all: intros [sh ch] _; simpl; rewrite assign_slice2_short by lia; eauto.
Qed.

(** [plot_cell_overlays] (with [self] bound): [plot_char=0] selects the
    x coordinate, yet [if plot_char:] treats 0 as false, so every scatter
    colour of a normal return stays 0. *)
Theorem cell_overlays_char_zero_unread (s : img) plot_component mva_type s' ov :
  plot_cell_overlays pai (Some s) plot_component mva_type (Some 0%Z) = Ok (s', ov) ->
  ov_char ov = repeat 0 (length (ov_targets ov)).
Proof.
  unfold plot_cell_overlays. intros H.
  apply bind_Ok in H as (component & _ & H).
  apply bind_Ok in H as (acc & Hacc & H). injection H as <- <-. simpl.
  revert Hacc. apply (for_each_inv (fun acc => snd acc = repeat 0 _)); [done|].
  intros pos [sh ch] t' Hch. destruct component as [comp|]; [|discriminate].
  simpl. destruct (assign_slice2 _ _); simpl; [|discriminate].
  intros [= <-]. done.
Qed.

End OverlayMore.

Lemma cell_overlays_unbound_component_witness :
  plot_cell_overlays (fun _ _ => []) (Some (factor_img [(1, 1)])) None "PCA" None
  = Err NameError.
Proof.
  apply (cell_overlays_unbound_component _ _ [(1, 1)]); [reflexivity|done|by left].
Defined.

Lemma cell_overlays_component_out_of_range_witness :
  plot_cell_overlays (fun _ _ => []) (Some (factor_img [(1, 1)])) (Some 1%Z) "pca" None
  = Err IndexError.
Proof.
  apply cell_overlays_component_out_of_range. left. split; [reflexivity|]. simpl. lia.
Defined.

Lemma cell_overlays_short_component_raises_witness :
  plot_cell_overlays (fun _ _ => []) (Some (factor_img [(1, 1); (2, 2)])) (Some 0%Z) "PCA" None
  = Err ValueError.
Proof.
  apply (cell_overlays_short_component_raises _ _ [(1, 1); (2, 2)] 0 "PCA"
           [1; 2; 3; 4; 5; 6; 7]).
  - reflexivity.
  - done.
  - left. split; reflexivity.
  - simpl. lia.
Defined.

Lemma cell_overlays_char_zero_unread_witness :
  ov_char (mk_overlay [(1, 1)] [(3, 4)] [0])
  = repeat 0 (length (ov_targets (mk_overlay [(1, 1)] [(3, 4)] [0]))).
Proof.
  apply (cell_overlays_char_zero_unread (fun _ _ => []) (factor_img [(1, 1)])
           (Some 0%Z) "PCA" (factor_img [(1, 1)])).
  reflexivity.
Defined.

End OverlayMore.

(** ** Further properties of [_plot_factors_or_pchars] *)

Module LayoutFacts.
Import Layout.

Lemma grid_rows_bounds n p :
  (0 < p)%Z ->
  (Z.of_nat n <= grid_rows n p * p)%Z /\ ((grid_rows n p - 1) * p < Z.of_nat n)%Z.
Proof.
  intros Hp. unfold grid_rows.
  set (x := inject_Z (Z.of_nat n) / inject_Z p).
  assert (Hpq : 0 < inject_Z p) by (change 0 with (inject_Z 0); rewrite <- Zlt_Qlt; lia).
  assert (Hx : x * inject_Z p == inject_Z (Z.of_nat n)).
  { unfold x. field. intros E. rewrite E in Hpq. discriminate. }
  split.
  - rewrite Zle_Qle, inject_Z_mult, <- Hx.
    apply Qmult_le_compat_r; [apply Qle_ceiling | apply Qlt_le_weak, Hpq].
  - rewrite Zlt_Qlt, inject_Z_mult, <- Hx.
    apply Qmult_lt_r; [exact Hpq | apply Qceiling_lt].
Qed.

Section LayoutFacts.
Variable plot_component : Z -> result unit.

(** [_plot_factors_or_pchars] in a shared window ([same_window=True]) with
    [per_row > 0], on an image with at least 3 axes, when every component
    draws: component [comp_ids[i]] goes to cell [i+1] of a grid of
    [rows = ceil(n/per_row)] rows and [per_row] columns; [rows] is the
    least number of rows whose grid holds all [n] components. *)
Theorem factor_grid_layout naxes ncols comp_ids per_row :
  (3 <= naxes)%nat -> (0 < per_row)%Z ->
  (forall c, c ∈ comp_id_list ncols comp_ids -> plot_component c = Ok tt) ->
  let ids := comp_id_list ncols comp_ids in
  let n := length ids in
  plot_factors_or_pchars plot_component naxes ncols comp_ids true per_row
  = inr (map (fun i => mk_subplot (grid_rows n per_row) per_row (Z.of_nat i + 1)
                                  (nth i ids 0%Z)) (seq 0 n))
  /\ (Z.of_nat n <= grid_rows n per_row * per_row)%Z
  /\ ((grid_rows n per_row - 1) * per_row < Z.of_nat n)%Z.
Proof.
  intros Hax Hp Hpc ids n.
  destruct (grid_rows_bounds n per_row Hp) as [Hlo Hhi].
  split; [|done].
  unfold plot_factors_or_pchars. fold ids. fold n. simpl.
  rewrite (proj2 (Z.eqb_neq per_row 0)) by lia.
  rewrite decide_False by lia. unfold draw_components. fold n.
  set (f := fun i => mk_subplot (grid_rows n per_row) per_row (Z.of_nat i + 1) (nth i ids 0%Z)).
  match goal with |- context [for_each (seq 0 n) [] ?body] =>
    destruct (OverlayFacts.for_each_seq (fun k sps => sps = map f (seq 0 k)) body 0 n [])
      as (sps & -> & ->); [done| |done] end.
  intros i t Hi ->. simpl.
  assert (Hr : (1 <= grid_rows n per_row)%Z).
  { destruct (Z.le_gt_cases (grid_rows n per_row) 0) as [H|H]; [|lia].
    pose proof (Z.mul_nonpos_nonneg _ _ H (Z.lt_le_incl _ _ Hp)). lia. }
  unfold add_subplot. rewrite decide_True by lia. simpl.
  rewrite Hpc by (apply list_elem_of_In, nth_In; unfold n, ids in *; lia). simpl.
  eexists. split; [reflexivity|].
  change (map f (seq 0 i) ++ [f i] = map f (seq 0 (S i))). by rewrite seq_S, map_app.
Qed.

(** [_plot_factors_or_pchars] in separate windows ([same_window=False]),
    on an image with at least 3 axes, when every component draws: each
    component gets a one-cell figure of its own, in order, whatever
    [per_row] is (it is not read). *)
Theorem factor_separate_windows naxes ncols comp_ids per_row :
  (3 <= naxes)%nat ->
  (forall c, c ∈ comp_id_list ncols comp_ids -> plot_component c = Ok tt) ->
  plot_factors_or_pchars plot_component naxes ncols comp_ids false per_row
  = inr (map (fun c => mk_subplot 1 1 1 c) (comp_id_list ncols comp_ids)).
Proof.
  intros Hax Hpc. unfold plot_factors_or_pchars. simpl.
  rewrite decide_False by lia. unfold draw_components.
  set (ids := comp_id_list ncols comp_ids) in *.
  set (f := fun c => mk_subplot 1 1 1 c).
  match goal with |- context [for_each (seq 0 (length ids)) [] ?body] =>
    destruct (OverlayFacts.for_each_seq (fun k sps => sps = map f (take k ids)) body 0 (length ids) [])
      as (sps & -> & ->); [by rewrite take_0| |by rewrite take_ge] end.
  intros i t Hi ->. simpl.
  rewrite Hpc by (apply list_elem_of_In, nth_In; lia). simpl.
  eexists. split; [reflexivity|].
  destruct (lookup_lt_is_Some_2 ids i) as [x Hx]; [lia|].
  rewrite (nth_lookup_Some ids i 0%Z x Hx).
  change (map f (take i ids) ++ [f x] = map f (take (S i) ids)).
  by rewrite (take_S_r _ _ x), map_app.
Qed.

End LayoutFacts.

Lemma factor_grid_layout_witness :
  plot_factors_or_pchars (fun _ => Ok tt) 3 5 CompNone true 2
  = inr [mk_subplot 3 2 1 0; mk_subplot 3 2 2 1; mk_subplot 3 2 3 2;
         mk_subplot 3 2 4 3; mk_subplot 3 2 5 4].
Proof.
  destruct (factor_grid_layout (fun _ => Ok tt) 3 5 CompNone 2) as [H _];
    [lia|lia|done|].
  rewrite H. vm_compute. reflexivity.
Defined.

Lemma factor_separate_windows_witness :
  plot_factors_or_pchars (fun _ => Ok tt) 3 4 (CompList [2; 0]%Z) false 0
  = inr [mk_subplot 1 1 1 2; mk_subplot 1 1 1 0].
Proof.
  rewrite factor_separate_windows; [reflexivity|lia|done].
Defined.

End LayoutFacts.

(** ** Component selection through [_plot_factors_or_pchars] *)

Module ComponentFacts.
Import NumpyIndex Layout.

Lemma for_each_fails_in {A S} (xs : list A) (s : S) body e x :
  (forall y t e', y ∈ xs -> body y t = Err e' -> e' = e) ->
  x ∈ xs -> (forall t, exists e', body x t = Err e') ->
  for_each xs s body = Err e.
Proof.
  revert s. induction xs as [|y xs IH]; intros s Herr Hx Hfail; [set_solver|]. simpl.
  destruct (body y s) as [t|e'] eqn:E; simpl.
  - apply elem_of_cons in Hx as [->|Hx].
    + destruct (Hfail s) as [e' He']. congruence.
    + apply IH; [|done|done]. intros y' t' e'' Hy' Hb. apply (Herr y' t'); [set_solver|done].
  - f_equal. apply (Herr y s); [set_solver|done].
Qed.

Lemma add_subplot_in_grid n per_row i :
  (0 < per_row)%Z -> (i < n)%nat ->
  add_subplot (grid_rows n per_row) per_row (Z.of_nat i + 1) = Ok tt.
Proof.
  intros Hp Hi. destruct (LayoutFacts.grid_rows_bounds n per_row Hp) as [Hlo _].
  unfold add_subplot. rewrite decide_True by lia. done.
Qed.

(** C4 (with [imgdraw._plot_component] modelled from the spec): through
    [_plot_factors_or_pchars] on an image with at least 3 axes (in a
    shared window with [per_row > 0], or in separate windows), selecting
    the component [ncols - 1] of the factor matrix succeeds, and any
    requested id [>= ncols] (from a list, or from [xrange(k)] with
    [k > ncols]) fails with ComponentIndexError. *)
Theorem factor_component_index_checked (factors : matrix) naxes same_window per_row :
  (1 <= ncols factors)%nat -> (3 <= naxes)%nat ->
  (same_window = false \/ (0 < per_row)%Z) ->
  (exists sps, plot_factors_or_pchars (select_plot_component factors) naxes
                 (ncols factors) (CompList [Z.of_nat (ncols factors) - 1]%Z)
                 same_window per_row = inr sps) /\
  (forall comp_ids c, c ∈ comp_id_list (ncols factors) comp_ids ->
     (Z.of_nat (ncols factors) <= c)%Z ->
     plot_factors_or_pchars (select_plot_component factors) naxes (ncols factors)
       comp_ids same_window per_row = inl (Raised IndexError)).
Proof.
  intros Hn Hax Hsw.
  assert (Ha1 : add_subplot 1 1 1 = Ok tt) by reflexivity.
  split.
  - unfold plot_factors_or_pchars, draw_components. simpl comp_id_list.
    destruct same_window.
    + destruct Hsw as [Hsw|Hp]; [discriminate|].
      pose proof (add_subplot_in_grid 1 per_row 0 Hp ltac:(lia)) as Ha.
      cbn [andb]. rewrite (proj2 (Z.eqb_neq per_row 0)) by lia.
      rewrite decide_False by lia. cbn [length seq for_each]. cbv beta iota zeta.
      rewrite Ha. cbn [bind nth]. unfold select_plot_component.
      rewrite decide_True by lia. cbn [bind]. eauto.
    + cbn [andb]. rewrite decide_False by lia. cbn [length seq for_each].
      cbv beta iota zeta. rewrite Ha1. cbn [bind nth]. unfold select_plot_component.
      rewrite decide_True by lia. cbn [bind]. eauto.
  - intros comp_ids c Hc Hge. unfold plot_factors_or_pchars, draw_components.
    set (ids := comp_id_list (ncols factors) comp_ids) in *.
    apply list_elem_of_lookup_1 in Hc as [j Hj].
    pose proof (lookup_lt_Some _ _ _ Hj) as Hjn.
    destruct same_window.
    + destruct Hsw as [Hsw|Hp]; [discriminate|].
      cbn [andb]. rewrite (proj2 (Z.eqb_neq per_row 0)) by lia.
      rewrite decide_False by lia.
      match goal with |- context [for_each ?xs [] ?body] =>
        assert (for_each xs [] body = Err IndexError) as ->; [|reflexivity];
        apply (for_each_fails_in xs [] body IndexError j) end.
      * intros y t e' Hy. apply list_elem_of_In, in_seq in Hy. cbv beta iota zeta.
        rewrite add_subplot_in_grid by (done || lia). cbn [bind].
        unfold select_plot_component. case_decide; cbn [bind]; congruence.
      * apply list_elem_of_In, in_seq. lia.
      * intros t. cbv beta iota zeta. rewrite add_subplot_in_grid by (done || lia).
        cbn [bind]. rewrite (nth_lookup_Some _ _ _ _ Hj). unfold select_plot_component.
        rewrite decide_False by lia. eauto.
    + cbn [andb]. rewrite decide_False by lia.
      match goal with |- context [for_each ?xs [] ?body] =>
        assert (for_each xs [] body = Err IndexError) as ->; [|reflexivity];
        apply (for_each_fails_in xs [] body IndexError j) end.
      * intros y t e' Hy. cbv beta iota zeta. rewrite Ha1. cbn [bind].
        unfold select_plot_component. case_decide; cbn [bind]; congruence.
      * apply list_elem_of_In, in_seq. lia.
      * intros t. cbv beta iota zeta. rewrite Ha1.
        cbn [bind]. rewrite (nth_lookup_Some _ _ _ _ Hj). unfold select_plot_component.
        rewrite decide_False by lia. eauto.
Qed.

Lemma factor_component_index_checked_witness :
  (exists sps, plot_factors_or_pchars (select_plot_component (mk_matrix 2 [[1; 2]; [3; 4]]))
                 3 2 (CompList [Z.of_nat 2 - 1]%Z) true 3 = inr sps) /\
  plot_factors_or_pchars (select_plot_component (mk_matrix 2 [[1; 2]; [3; 4]]))
    3 2 (CompInt 3) true 3 = inl (Raised IndexError).
Proof.
  destruct (factor_component_index_checked (mk_matrix 2 [[1; 2]; [3; 4]]) 3 true 3)
    as [H1 H2]; [simpl; lia|lia|right; lia|].
  split; [exact H1|].
  apply (H2 (CompInt 3) 2%Z); [simpl; apply list_elem_of_In; simpl; auto|simpl; lia].
Defined.

End ComponentFacts.
